(** * Hand_gesture_mouse_control.py: the per-frame gesture pipeline

    A shallow embedding of [map_with_margin], of the body of the
    [while True] loop of [capture_loop], of the single-slot queue with
    [update_overlay] and of the overlay's [paintEvent], followed by the
    properties the specification states about them and by further
    properties of the code.

    Numbers.  Landmark coordinates, [SMOOTH_ALPHA], [CAMERA_MARGIN] and the
    two thresholds are Python floats.  The loop is modelled with exact
    rationals ([Q]) in their place: every arithmetic expression of the
    source is kept as written, but the rounding of binary64 is not part of
    that model.  Pixel coordinates are Python ints and are modelled as [Z].
    Module [Binary64] holds the numeric blocks once more, on IEEE doubles:
    the contract of [map_with_margin] is stated and proved there, and the
    worked scenarios are evaluated with it.

    Effects.  The calls the loop makes on the [pynput] mouse controller, on
    the process ([os._exit]) and on the single-slot queue are recorded, in
    program order, as a list of [call]s per loop iteration.  [print], the
    OpenCV preview window and the camera handle are not recorded. *)

From stdpp Require Import gmap strings.
From Stdlib Require Import QArith Qround Lqa Lia Floats.

Local Open Scope Q_scope.

(** ** Python primitives on numbers *)

Module Py.

(** [a < b] on numbers, as a boolean. *)
Definition ltb (a b : Q) : bool := (Qnum a * QDen b <? Qnum b * QDen a)%Z.

(** [a > b]. *)
Definition gtb (a b : Q) : bool := ltb b a.

(** [int(q)]: truncation towards zero. *)
Definition int (q : Q) : Z := (Qnum q ÷ Z.pos (Qden q))%Z.

(** [max(a, b)] keeps its first argument unless the second is strictly
    greater; [min(a, b)] keeps it unless the second is strictly smaller. *)
Definition max (a b : Q) : Q := if gtb b a then b else a.
Definition min (a b : Q) : Q := if ltb b a then b else a.

End Py.

Notation "a <? b" := (Py.ltb a b) : Q_scope.
Notation "a >? b" := (Py.gtb a b) : Q_scope.

(** ** User constants *)

Definition SMOOTH_ALPHA : Q := 0.30.
Definition CAMERA_MARGIN : Q := 0.10.

(** ** Mapping helper *)

(** [map_with_margin(val, margin)].  The division raises
    [ZeroDivisionError] when [1 - 2 * margin] is zero: [None]. *)
Definition map_with_margin (val margin : Q) : option Q :=
  if Qeq_bool (1 - 2 * margin) 0 then None
  else
    let val := (val - margin) / (1 - 2 * margin) in
    Some (Py.min (Py.max val 0) 1).

(** The contract in the words of the specification. *)
Definition clamp (v lo hi : Q) : Q :=
  if Qlt_le_dec v lo then lo else if Qlt_le_dec hi v then hi else v.


(** What [map_with_margin] returns at [CAMERA_MARGIN] (see
    [map_with_margin_camera]). *)
Definition mapped (val : Q) : Q :=
  Py.min (Py.max ((val - CAMERA_MARGIN) / (1 - 2 * CAMERA_MARGIN)) 0) 1.

(** ** Landmarks *)

Module Landmark.
(** One normalized landmark of MediaPipe: [lm[i].x], [lm[i].y]. *)
Record t := mk { x : Q; y : Q }.
End Landmark.

(** [lm = hand_landmarks.landmark], the landmark container of the first
    detected hand.  Its class belongs to MediaPipe, not to the repository;
    the loop uses two of its operations, which are what the model keeps:
    [getitem lm i] is [lm[i]] and [contains lm i] is the outcome of
    [i in lm]. *)
Record landmarks := {
  getitem : nat -> Landmark.t;
  contains : nat -> bool
}.

Coercion getitem : landmarks >-> Funclass.

(** ** Finger states, computed from the landmarks of one frame *)

Definition middle_down (lm : landmarks) : bool :=
  Landmark.y (lm 12%nat) >? Landmark.y (lm 10%nat).
Definition ring_down (lm : landmarks) : bool :=
  Landmark.y (lm 16%nat) >? Landmark.y (lm 14%nat).
Definition pinky_down (lm : landmarks) : bool :=
  Landmark.y (lm 20%nat) >? Landmark.y (lm 18%nat).
Definition index_down (lm : landmarks) : bool :=
  Landmark.y (lm 8%nat) >? Landmark.y (lm 6%nat).

Definition CURL_THRESHOLD : Q := 0.04.
Definition STRONG_UP_THRESHOLD : Q := 0.04.

Definition index_strong_up (lm : landmarks) : bool :=
  Landmark.y (lm 8%nat) <? Landmark.y (lm 6%nat) - STRONG_UP_THRESHOLD.
Definition pinky_strong_up (lm : landmarks) : bool :=
  Landmark.y (lm 20%nat) <? Landmark.y (lm 18%nat) - STRONG_UP_THRESHOLD.
Definition middle_strong_down (lm : landmarks) : bool :=
  Landmark.y (lm 12%nat) >? Landmark.y (lm 10%nat) + CURL_THRESHOLD.
Definition ring_strong_down (lm : landmarks) : bool :=
  Landmark.y (lm 16%nat) >? Landmark.y (lm 14%nat) + CURL_THRESHOLD.

(** The condition of the termination test: the strict "rock and roll"
    gesture. *)
Definition rock_and_roll (lm : landmarks) : bool :=
  index_strong_up lm && pinky_strong_up lm
  && middle_strong_down lm && ring_strong_down lm.

(** The four strong conditions in the words of the specification, with
    the image y axis growing downwards. *)
Definition strong_conditions (lm : landmarks) : Prop :=
  Landmark.y (lm 8%nat) < Landmark.y (lm 6%nat) - 0.04
  /\ Landmark.y (lm 20%nat) < Landmark.y (lm 18%nat) - 0.04
  /\ Landmark.y (lm 10%nat) + 0.04 < Landmark.y (lm 12%nat)
  /\ Landmark.y (lm 14%nat) + 0.04 < Landmark.y (lm 16%nat).

(** ** Calls on the outside world *)

Module Button.
(** [pynput.mouse.Button]. *)
Inductive t := left | right.

Definition eqb (a b : t) : bool :=
  match a, b with
  | left, left | right, right => true
  | _, _ => false
  end.
End Button.

Inductive call :=
| set_position (x y : Z)            (* mouse.position = (x, y) *)
| press (b : Button.t)              (* mouse.press(b) *)
| release (b : Button.t)            (* mouse.release(b) *)
| os_exit                           (* os._exit(0) *)
| put_nowait (tips_scr : gmap (nat * nat) (Z * Z))
             (active_gestures : gmap (nat * nat) bool).
                                    (* tip_queue.put_nowait((tips_scr, active_gestures)) *)

(** ** State carried from one loop iteration to the next *)

Record state := {
  prev_x : Z;
  prev_y : Z;
  middle_grabbed : bool;
  pinky_was_down : bool;
  ring_was_down : bool;
  all_fingers_were_down : bool
}.

(** The assignments before [while True]. *)
Definition initial : state :=
  {| prev_x := 0; prev_y := 0; middle_grabbed := false;
     pinky_was_down := false; ring_was_down := false;
     all_fingers_were_down := false |}.

(** What one iteration is given: [cap.read()] failed, or a frame was read,
    MediaPipe found a hand or not, and [waitKey] saw ESC/q or not. *)
Inductive frame :=
| read_failed
| captured (multi_hand_landmarks : option landmarks) (quit_key : bool).

(** How one iteration ends. *)
Inductive control :=
| next_frame (st : state)
| loop_break
| process_exit.

(** ** The blocks of the loop body *)

(** Cursor smoothing: [int(prev + SMOOTH_ALPHA * (cursor - prev))]. *)
Definition smooth (prev cursor : Z) : Z :=
  Py.int (inject_Z prev + SMOOTH_ALPHA * inject_Z (cursor - prev)).

(** The termination test.  [None]: the process exits; otherwise the new
    value of [all_fingers_were_down]. *)
Definition terminate (rock all_fingers_were_down : bool) : option bool :=
  if rock then
    if negb all_fingers_were_down then None else Some true
  else Some false.

(** Grab with the middle finger: calls and new [middle_grabbed]. *)
Definition grab (middle_down middle_grabbed : bool) : list call * bool :=
  if middle_down then
    if negb middle_grabbed then ([press Button.left], true)
    else ([], middle_grabbed)
  else
    if middle_grabbed then ([release Button.left], false)
    else ([], middle_grabbed).

(** Right click with the ring finger: calls and new [ring_was_down]. *)
Definition right_click (ring_down ring_was_down : bool) : list call * bool :=
  if ring_down then
    if negb ring_was_down then
      ([press Button.right; release Button.right], true)
    else ([], ring_was_down)
  else ([], false).

(** Click with the pinky: calls and new [pinky_was_down]. *)
Definition click (pinky_down pinky_was_down : bool) : list call * bool :=
  if pinky_down then
    if negb pinky_was_down then
      ([press Button.left; release Button.left], true)
    else ([], pinky_was_down)
  else ([], false).

Definition fingertip_indices : list nat := [8; 12; 16; 20]%nat.

Section Screen.

(** [scr_w, scr_h = screen_size()]. *)
Variables scr_w scr_h : Z.

(** The loop over [fingertip_indices] that fills [tips_scr]. *)
Definition project (lm : landmarks) : option (gmap (nat * nat) (Z * Z)) :=
  foldl
    (fun acc i =>
       tips_scr ← acc;
       if contains lm i then
         mapped_fx ← map_with_margin (Landmark.x (lm i)) CAMERA_MARGIN;
         mapped_fy ← map_with_margin (Landmark.y (lm i)) CAMERA_MARGIN;
         Some (<[(0%nat, i) := (Py.int (inject_Z scr_w * mapped_fx),
                                Py.int (inject_Z scr_h * mapped_fy))]> tips_scr)
       else Some tips_scr)
    (Some ∅) fingertip_indices.

(** The branch [if res.multi_hand_landmarks:].  The result holds the calls
    made and, unless the process exited, the new state with the two
    dictionaries of the frame. *)
Definition on_hand (st : state) (lm : landmarks)
  : option (list call
            * option (state * gmap (nat * nat) (Z * Z) * gmap (nat * nat) bool)) :=
  let index_tip := lm 8%nat in
  mapped_x ← map_with_margin (Landmark.x index_tip) CAMERA_MARGIN;
  mapped_y ← map_with_margin (Landmark.y index_tip) CAMERA_MARGIN;
  let cursor_x := Py.int (mapped_x * inject_Z scr_w) in
  let cursor_y := Py.int (mapped_y * inject_Z scr_h) in
  let smooth_x := smooth (prev_x st) cursor_x in
  let smooth_y := smooth (prev_y st) cursor_y in
  let moved := [set_position smooth_x smooth_y] in
  let active_gestures : gmap (nat * nat) bool := <[(0%nat, 8%nat) := true]> ∅ in
  match terminate (rock_and_roll lm) (all_fingers_were_down st) with
  | None => Some (moved ++ [os_exit], None)
  | Some all_fingers_were_down' =>
      let '(grabbed, middle_grabbed') := grab (middle_down lm) (middle_grabbed st) in
      let active_gestures := <[(0%nat, 12%nat) := middle_down lm]> active_gestures in
      let '(right_clicked, ring_was_down') :=
        right_click (ring_down lm) (ring_was_down st) in
      let active_gestures := <[(0%nat, 16%nat) := ring_down lm]> active_gestures in
      let '(clicked, pinky_was_down') := click (pinky_down lm) (pinky_was_down st) in
      let active_gestures := <[(0%nat, 20%nat) := pinky_down lm]> active_gestures in
      tips_scr ← project lm;
      Some (moved ++ grabbed ++ right_clicked ++ clicked,
            Some ({| prev_x := smooth_x; prev_y := smooth_y;
                     middle_grabbed := middle_grabbed';
                     pinky_was_down := pinky_was_down';
                     ring_was_down := ring_was_down';
                     all_fingers_were_down := all_fingers_were_down' |},
                  tips_scr, active_gestures))
  end.

(** One iteration of [while True].  [None]: the iteration raised. *)
Definition loop_body (st : state) (f : frame) : option (list call * control) :=
  match f with
  | read_failed => Some ([], next_frame st)
  | captured multi_hand_landmarks quit_key =>
      '(calls, r) ← match multi_hand_landmarks with
                    | Some lm => on_hand st lm
                    | None => Some ([], Some (st, ∅, ∅))
                    end;
      match r with
      | None => Some (calls, process_exit)
      | Some (st', tips_scr, active_gestures) =>
          Some (calls ++ [put_nowait tips_scr active_gestures],
                if quit_key then loop_break else next_frame st')
      end
  end.

(** The loop run on a finite list of frames, from a given state: the
    calls of each iteration that ran, and how the last one ended. *)
Fixpoint capture_loop_from (st : state) (frames : list frame)
  : option (list (list call) * control) :=
  match frames with
  | [] => Some ([], next_frame st)
  | f :: frames' =>
      '(calls, c) ← loop_body st f;
      match c with
      | next_frame st' =>
          '(rest, c') ← capture_loop_from st' frames';
          Some (calls :: rest, c')
      | _ => Some ([calls], c)
      end
  end.

Definition capture_loop (frames : list frame) : option (list (list call) * control) :=
  capture_loop_from initial frames.

End Screen.

(** The values one iteration computes from a hand: the raw cursor
    ([cursor_x], [cursor_y]), the dictionary [tips_scr] and the dictionary
    [active_gestures] as they are when the branch ends. *)
Definition cursor (scr_w scr_h : Z) (lm : landmarks) : Z * Z :=
  (Py.int (mapped (Landmark.x (lm 8%nat)) * inject_Z scr_w),
   Py.int (mapped (Landmark.y (lm 8%nat)) * inject_Z scr_h)).

Definition tip (scr_w scr_h : Z) (lm : landmarks) (i : nat) : Z * Z :=
  (Py.int (inject_Z scr_w * mapped (Landmark.x (lm i))),
   Py.int (inject_Z scr_h * mapped (Landmark.y (lm i)))).

Definition tips_of (scr_w scr_h : Z) (lm : landmarks) : gmap (nat * nat) (Z * Z) :=
  foldl (fun tips_scr i =>
           if contains lm i then <[(0%nat, i) := tip scr_w scr_h lm i]> tips_scr
           else tips_scr)
        ∅ fingertip_indices.

Definition gestures_of (lm : landmarks) : gmap (nat * nat) bool :=
  <[(0%nat, 20%nat) := pinky_down lm]>
    (<[(0%nat, 16%nat) := ring_down lm]>
       (<[(0%nat, 12%nat) := middle_down lm]>
          (<[(0%nat, 8%nat) := true]> ∅))).

(** The state after an iteration that saw a hand and did not exit. *)
Definition after_hand (scr_w scr_h : Z) (st : state) (lm : landmarks) : state :=
  {| prev_x := smooth (prev_x st) (cursor scr_w scr_h lm).1;
     prev_y := smooth (prev_y st) (cursor scr_w scr_h lm).2;
     middle_grabbed := (grab (middle_down lm) (middle_grabbed st)).2;
     pinky_was_down := (click (pinky_down lm) (pinky_was_down st)).2;
     ring_was_down := (right_click (ring_down lm) (ring_was_down st)).2;
     all_fingers_were_down := rock_and_roll lm |}.

(** The calls on the mouse buttons in such an iteration. *)
Definition button_calls (st : state) (lm : landmarks) : list call :=
  (grab (middle_down lm) (middle_grabbed st)).1
  ++ (right_click (ring_down lm) (ring_was_down st)).1
  ++ (click (pinky_down lm) (pinky_was_down st)).1.

(** The iteration exits the process. *)
Definition exits (st : state) (lm : landmarks) : bool :=
  rock_and_roll lm && negb (all_fingers_were_down st).

(** All the calls of such an iteration. *)
Definition hand_calls (scr_w scr_h : Z) (st : state) (lm : landmarks) : list call :=
  set_position (smooth (prev_x st) (cursor scr_w scr_h lm).1)
               (smooth (prev_y st) (cursor scr_w scr_h lm).2)
    :: button_calls st lm
    ++ [put_nowait (tips_of scr_w scr_h lm) (gestures_of lm)].

(** The calls and the final state of a run over hands none of which exits. *)
Fixpoint hand_run (scr_w scr_h : Z) (st : state) (lms : list landmarks)
  : list (list call) * state :=
  match lms with
  | [] => ([], st)
  | lm :: lms' =>
      let r := hand_run scr_w scr_h (after_hand scr_w scr_h st lm) lms' in
      (hand_calls scr_w scr_h st lm :: r.1, r.2)
  end.

(** A frame with a hand and no quit key, and a frame without a hand. *)
Definition hand (lm : landmarks) : frame := captured (Some lm) false.
Definition no_hand : frame := captured None false.

(** ** Sample hands *)

(** Modelled from the spec: the specification describes an observation as
    the ordered sequence of the 21 landmarks.  On a sequence Python's [in]
    asks whether the left operand is one of the elements, and the elements
    are landmark objects, none of which equals an int: [i in lm] is false
    for every index [i]. *)
Definition sequence_of_landmarks (at_index : nat -> Landmark.t) : landmarks :=
  {| getitem := at_index; contains := fun _ => false |}.

(** A hand given by its index fingertip and by the heights of the tips of
    the middle, ring and pinky fingers; every other landmark, the four PIP
    joints among them, is at (0.5, 0.5). *)
Definition pose (index_tip : Landmark.t) (middle_tip_y ring_tip_y pinky_tip_y : Q)
  : landmarks :=
  sequence_of_landmarks
    (fun i =>
       match i with
       | 8%nat => index_tip
       | 12%nat => Landmark.mk 0.5 middle_tip_y
       | 16%nat => Landmark.mk 0.5 ring_tip_y
       | 20%nat => Landmark.mk 0.5 pinky_tip_y
       | _ => Landmark.mk 0.5 0.5
       end).

(** All four fingers stretched. *)
Definition open_hand : landmarks := pose (Landmark.mk 0.5 0.4) 0.4 0.4 0.4.
(** Index and pinky stretched, middle and ring curled. *)
Definition rock_hand : landmarks := pose (Landmark.mk 0.5 0.4) 0.6 0.6 0.4.
(** Only the middle finger curled, as in scenario B. *)
Definition middle_curled : landmarks := pose (Landmark.mk 0.5 0.4) 0.6 0.4 0.4.
(** Only the ring finger curled; the middle finger and the pinky curled. *)
Definition ring_curled : landmarks := pose (Landmark.mk 0.5 0.4) 0.4 0.6 0.4.
Definition middle_pinky_curled : landmarks := pose (Landmark.mk 0.5 0.4) 0.6 0.4 0.6.
(** The index fingertip in the middle of the camera frame, as in scenario A. *)
Definition centred : landmarks := pose (Landmark.mk 0.5 0.5) 0.4 0.4 0.4.

(** ** Reading the calls *)

(** The actions of the specification's output alphabet.  A [press]
    immediately followed by the [release] of the same button is one click;
    the queue hand-off is not an action on the pointer. *)
Module Action.
Inductive t :=
| move_to (x y : Z)
| press (b : Button.t)
| release (b : Button.t)
| click (b : Button.t)
| terminate_process.

Definition eqb (a a' : t) : bool :=
  match a, a' with
  | move_to x y, move_to x' y' => ((x =? x') && (y =? y'))%Z
  | press b, press b' | release b, release b' | click b, click b' => Button.eqb b b'
  | terminate_process, terminate_process => true
  | _, _ => false
  end.
End Action.

Fixpoint actions (calls : list call) : list Action.t :=
  match calls with
  | [] => []
  | set_position x y :: rest => Action.move_to x y :: actions rest
  | press b :: rest =>
      match rest with
      | release b' :: rest' =>
          if Button.eqb b b' then Action.click b :: actions rest'
          else Action.press b :: actions rest
      | _ => Action.press b :: actions rest
      end
  | release b :: rest => Action.release b :: actions rest
  | os_exit :: rest => Action.terminate_process :: actions rest
  | put_nowait _ _ :: rest => actions rest
  end.

(** How often action [a] occurs in the iterations of a run. *)
Fixpoint occurrences (a : Action.t) (l : list Action.t) : nat :=
  match l with
  | [] => 0
  | a' :: l' => (if Action.eqb a a' then 1 else 0) + occurrences a l'
  end.

Definition emitted (a : Action.t) (iterations : list (list call)) : nat :=
  occurrences a (concat (map actions iterations)).

(** Whether button [b] is down after the calls, given whether it was down
    before them. *)
Definition button_down (b : Button.t) (down : bool) (calls : list call) : bool :=
  foldl (fun d c =>
           match c with
           | press b' => if Button.eqb b b' then true else d
           | release b' => if Button.eqb b b' then false else d
           | _ => d
           end) down calls.

(** Number of false-to-true edges of a finger's down state along a run of
    frames, given the value remembered from before the run. *)
Fixpoint rising_edges (was_down : bool) (downs : list bool) : nat :=
  match downs with
  | [] => 0
  | d :: downs' => (if d && negb was_down then 1 else 0) + rising_edges d downs'
  end.

(** The smoother fed [n] times with the same raw value. *)
Definition settle (n : nat) (prev raw : Z) : Z :=
  Nat.iter n (fun p => smooth p raw) prev.

(** A call keeps the pointer on a screen of the given size. *)
Definition on_screen (scr_w scr_h : Z) (c : call) : Prop :=
  match c with
  | set_position x y => (0 <= x <= scr_w)%Z /\ (0 <= y <= scr_h)%Z
  | _ => True
  end.

(** The smoothed position kept in the state is on the screen. *)
Definition bounded (scr_w scr_h : Z) (st : state) : Prop :=
  (0 <= prev_x st <= scr_w)%Z /\ (0 <= prev_y st <= scr_h)%Z.

(** ** Readings of the specification that the code does not follow *)

(** "A single step moves the smoothed value by exactly the alpha fraction of
    the gap." *)
Definition exact_alpha_step : Prop :=
  forall prev raw : Z,
    inject_Z (smooth prev raw) - inject_Z prev
    == SMOOTH_ALPHA * (inject_Z raw - inject_Z prev).

(** "Repeated identical raw input converges the smoothed output to the raw
    value within rounding", rounding being that of one truncation. *)
Definition settles_within_rounding : Prop :=
  forall prev raw : Z,
    exists n : nat, forall k : nat,
      (n <= k)%nat -> (Z.abs (settle k prev raw - raw) <= 1)%Z.

(** The order "classify, evaluate the exit gesture, update the latches, then
    map and smooth the cursor": an iteration that exits has done no other
    work, and the pointer is moved after the buttons. *)
Definition exit_before_cursor (scr_w scr_h : Z) : Prop :=
  forall st lm key calls,
    loop_body scr_w scr_h st (captured (Some lm) key) = Some (calls, process_exit) ->
    actions calls = [Action.terminate_process].

Definition latches_before_cursor (scr_w scr_h : Z) : Prop :=
  forall st lm key calls c before x y after,
    loop_body scr_w scr_h st (captured (Some lm) key) = Some (calls, c) ->
    calls = before ++ set_position x y :: after ->
    forall b, ~ In (press b) after /\ ~ In (release b) after.

(** ** The numeric blocks again, on IEEE doubles *)

(** The same expressions evaluated as CPython evaluates them: floats are
    binary64 with round-to-nearest-even, ints are unbounded, an int meeting
    a float is converted first, and [max]/[min] return one of their
    arguments unchanged (so the mapper may return the int 0 or 1). *)
Module Binary64.

Inductive number := Int (z : Z) | Float (f : float).

(** [float(z)]. *)
Definition of_int (z : Z) : float :=
  SF2Prim (SpecFloat.binary_normalize FloatOps.prec FloatOps.emax z 0 false).

Definition to_float (n : number) : float :=
  match n with Int z => of_int z | Float f => f end.

(** [int(n)]; it raises on an infinity or a NaN. *)
Definition int (n : number) : option Z :=
  match n with
  | Int z => Some z
  | Float f =>
      match Prim2SF f with
      | SpecFloat.S754_zero _ => Some 0%Z
      | SpecFloat.S754_finite s m e =>
          Some (SpecFloat.cond_Zopp s (Z.shiftl (Z.pos m) e))
      | _ => None
      end
  end.

(** The doubles nearest to 0.30 and 0.10. *)
Definition SMOOTH_ALPHA : float := 0x1.3333333333333p-2.
Definition CAMERA_MARGIN : float := 0x1.999999999999ap-4.

Definition map_with_margin (val margin : float) : option number :=
  let d := (1 - 2 * margin)%float in
  if (d =? 0)%float then None
  else
    let val := ((val - margin) / d)%float in
    let lower := if (val <? 0)%float then Int 0 else Float val in
    Some (if (1 <? to_float lower)%float then Int 1 else lower).

(** [int(mapped * scr)]. *)
Definition scale (mapped : number) (scr : Z) : option Z :=
  match mapped with
  | Int z => Some (z * scr)%Z
  | Float f => int (Float (f * of_int scr)%float)
  end.

Definition smooth (prev cursor : Z) : option Z :=
  int (Float (of_int prev + SMOOTH_ALPHA * of_int (cursor - prev))%float).


(** The contract of the mapper in the specification's words, on a quotient
    that has already been computed: below 0 it is 0, above 1 it is 1, else
    the quotient itself. *)
Definition clamp (q : float) : number :=
  if (q <? 0)%float then Int 0
  else if (1 <? q)%float then Int 1
  else Float q.

(** The raw pixel coordinates of one frame, from the index fingertip's [x]
    and [y]: [mapped_x], [mapped_y], [cursor_x], [cursor_y] of
    [capture_loop]. *)
Definition cursor (x y : float) (scr_w scr_h : Z) : option (Z * Z) :=
  mapped_x ← map_with_margin x CAMERA_MARGIN;
  mapped_y ← map_with_margin y CAMERA_MARGIN;
  cursor_x ← scale mapped_x scr_w;
  cursor_y ← scale mapped_y scr_h;
  Some (cursor_x, cursor_y).

End Binary64.


(** ** Runs with gaps *)

(** The hand MediaPipe found in the frame of an iteration, if there was a
    frame and a hand, and whether the iteration saw the quit key. *)
Definition seen (f : frame) : option landmarks :=
  match f with
  | read_failed => None
  | captured multi_hand_landmarks _ => multi_hand_landmarks
  end.

Definition quit_key_of (f : frame) : bool :=
  match f with
  | read_failed => false
  | captured _ quit_key => quit_key
  end.

(** The hands of a list of frames, in order. *)
Definition hands (frames : list frame) : list landmarks := omap seen frames.

(** Number of true-to-false edges, as [rising_edges] counts the others. *)
Fixpoint falling_edges (was_down : bool) (downs : list bool) : nat :=
  match downs with
  | [] => 0
  | d :: downs' => (if negb d && was_down then 1 else 0) + falling_edges d downs'
  end.

(** ** The queue between the loop and the overlay *)

(** [tip_queue = queue.Queue(maxsize=1)]: empty, or holding one pair
    [(tips_scr, active_gestures)]. *)
Definition slot : Type := option (gmap (nat * nat) (Z * Z) * gmap (nat * nat) bool).

(** [tip_queue.put_nowait(item)] inside [try ... except queue.Full: pass]:
    on a full queue the new item is dropped. *)
Definition put (q : slot) (item : gmap (nat * nat) (Z * Z) * gmap (nat * nat) bool) : slot :=
  match q with
  | Some _ => q
  | None => Some item
  end.

(** The effect of the calls of one loop iteration on the queue. *)
Definition offer (q : slot) (calls : list call) : slot :=
  foldl (fun q c =>
           match c with
           | put_nowait tips_scr active_gestures => put q (tips_scr, active_gestures)
           | _ => q
           end) q calls.

(** The items the calls offer to the queue, in order. *)
Definition offered (calls : list call)
  : list (gmap (nat * nat) (Z * Z) * gmap (nat * nat) bool) :=
  omap (fun c => match c with
                 | put_nowait tips_scr active_gestures => Some (tips_scr, active_gestures)
                 | _ => None
                 end) calls.

(** What the overlay shows: [self.tips] and [self.active_gestures], both
    empty after [__init__]. *)
Record overlay := {
  tips : gmap (nat * nat) (Z * Z);
  active_gestures : gmap (nat * nat) bool
}.

Definition overlay_init : overlay := {| tips := ∅; active_gestures := ∅ |}.

(** [update_tips(tips, active_gestures)]; [active_gestures or {}] is the
    dictionary itself, an empty one being replaced by an empty one. *)
Definition update_tips (tips_scr : gmap (nat * nat) (Z * Z))
    (gestures : gmap (nat * nat) bool) : overlay :=
  {| tips := tips_scr; active_gestures := gestures |}.

(** One run of [update_overlay]: [get_nowait] either takes the item out of
    the queue, and the overlay is updated with it, or raises [queue.Empty],
    and nothing changes.  The loop only puts pairs, so [data] is a tuple. *)
Definition update_overlay (ov : overlay) (q : slot) : overlay * slot :=
  match q with
  | Some (tips_scr, gestures) => (update_tips tips_scr gestures, None)
  | None => (ov, None)
  end.

(** The two threads take turns on the queue, whose operations are atomic:
    a turn is one loop iteration, given by its calls, or one run of
    [update_overlay]. *)
Inductive turn :=
| iteration (calls : list call)
| timer.

(** The items the overlay is updated with along a schedule of turns, and the
    overlay and the queue at its end. *)
Fixpoint shown (ov : overlay) (q : slot) (turns : list turn)
  : list (gmap (nat * nat) (Z * Z) * gmap (nat * nat) bool) * (overlay * slot) :=
  match turns with
  | [] => ([], (ov, q))
  | iteration calls :: turns' => shown ov (offer q calls) turns'
  | timer :: turns' =>
      let r := shown (update_overlay ov q).1 (update_overlay ov q).2 turns' in
      (match q with Some item => item :: r.1 | None => r.1 end, r.2)
  end.


(** ** The overlay's [paintEvent] *)

Module OverlayWindow.

Definition COLORS (key : nat * nat) : option (Z * Z * Z) :=
  match key with
  | (0, 8)%nat => Some (0, 200, 0)%Z
  | (0, 12)%nat => Some (0, 0, 230)%Z
  | (0, 16)%nat => Some (230, 200, 0)%Z
  | (0, 20)%nat => Some (230, 0, 150)%Z
  | _ => None
  end.

Definition FINGERTIPS : list nat := [8; 12; 16; 20]%nat.

(** The local dictionaries [fingertip_names] and [gesture_names], read with
    [.get(lm_idx, '')]. *)
Definition fingertip_names (lm_idx : nat) : string :=
  match lm_idx with
  | 8%nat => "I" | 12%nat => "M" | 16%nat => "R" | 20%nat => "P"
  | _ => EmptyString
  end.

Definition gesture_names (lm_idx : nat) : string :=
  match lm_idx with
  | 8%nat => "MOVE" | 12%nat => "GRAB" | 16%nat => "RIGHT" | 20%nat => "CLICK"
  | _ => EmptyString
  end.

(** What the painter is asked to draw: [drawEllipse(QPoint(x, y), radius,
    radius)] with the brush [QColor(r, g, b, alpha)], and
    [drawText(QPoint(x, y), label)]. *)
Inductive drawn :=
| drawEllipse (x y radius : Z) (color : Z * Z * Z * Z)
| drawText (x y : Z) (label : string).

(** The body of the loop over [self.tips.items()] for one item.  [wave] is
    [abs(math.sin(current_time * 8))], a number of [0, 1] that the model
    takes as given. *)
Definition paint_tip (active_gestures : gmap (nat * nat) bool) (wave : Q)
    (item : (nat * nat) * (Z * Z)) : list drawn :=
  let '((hand_idx, lm_idx), pos) := item in
  if existsb (Nat.eqb lm_idx) FINGERTIPS then
    let base_color := default (200, 200, 200)%Z (COLORS (hand_idx, lm_idx)) in
    let is_active := default false (active_gestures !! (hand_idx, lm_idx)) in
    let base_radius := 16%Z in
    let alpha := 220%Z in
    let pulse := wave * 0.4 + 0.6 in
    let '(r, g, b) := base_color in
    let color :=
      if is_active then
        (Py.int (inject_Z r * pulse), Py.int (inject_Z g * pulse),
         Py.int (inject_Z b * pulse), alpha)
      else (r, g, b, alpha) in
    let radius :=
      if is_active then Py.int (inject_Z base_radius * (1 + 0.3 * pulse))
      else base_radius in
    let '(x, y) := pos in
    let label := fingertip_names lm_idx in
    let gesture_label := gesture_names lm_idx in
    [drawEllipse x y radius color]
    ++ (if String.eqb label EmptyString then []
        else [drawText (x + radius + 3) (y + 4) label])
    ++ (if is_active && existsb (Nat.eqb lm_idx) [8; 12; 16; 20]%nat then
          if String.eqb gesture_label EmptyString then []
          else [drawText (x - 20) (y - radius - 10) gesture_label]
        else [])
  else [].

(** [paintEvent] on the items of [self.tips], in the order the dictionary
    yields them. *)
Definition paintEvent (items : list ((nat * nat) * (Z * Z)))
    (active_gestures : gmap (nat * nat) bool) (wave : Q) : list drawn :=
  concat (map (paint_tip active_gestures wave) items).

(** A circle the painter can draw: radius from 16 to 20, colour components
    from 0 to 255, alpha 220. *)
Definition well_formed (d : drawn) : Prop :=
  match d with
  | drawEllipse _ _ radius (r, g, b, alpha) =>
      (16 <= radius <= 20)%Z /\ alpha = 220%Z
      /\ (0 <= r <= 255)%Z /\ (0 <= g <= 255)%Z /\ (0 <= b <= 255)%Z
  | drawText _ _ label => label <> EmptyString
  end.

Definition is_ellipse (d : drawn) : bool :=
  match d with drawEllipse _ _ _ _ => true | drawText _ _ _ => false end.

(** What is to be drawn for one item of [self.tips], in words.  Nothing for
    a landmark that is not one of the four fingertips.  For a fingertip
    whose gesture is not active: the circle of radius 16 at its position, in
    the colour of the fingertip (grey for a hand other than the first), and
    its letter 19 pixels to the right.  For a fingertip whose gesture is
    active: a circle of radius 18 to 20 in which no colour channel is
    brighter than the fingertip's, its letter 3 pixels right of the circle,
    and the name of the gesture 10 pixels above the circle. *)
Definition painted (active_gestures : gmap (nat * nat) bool)
    (item : (nat * nat) * (Z * Z)) (ds : list drawn) : Prop :=
  let '((hand_idx, lm_idx), (x, y)) := item in
  if decide (lm_idx ∈ [8; 12; 16; 20]%nat) then
    let '(r, g, b) :=
      match hand_idx, lm_idx with
      | 0%nat, 8%nat => (0, 200, 0)%Z
      | 0%nat, 12%nat => (0, 0, 230)%Z
      | 0%nat, 16%nat => (230, 200, 0)%Z
      | 0%nat, 20%nat => (230, 0, 150)%Z
      | _, _ => (200, 200, 200)%Z
      end in
    let letter :=
      match lm_idx with
      | 8%nat => "I" | 12%nat => "M" | 16%nat => "R" | _ => "P"
      end in
    let gesture :=
      match lm_idx with
      | 8%nat => "MOVE" | 12%nat => "GRAB" | 16%nat => "RIGHT" | _ => "CLICK"
      end in
    if decide (active_gestures !! (hand_idx, lm_idx) = Some true) then
      exists radius r' g' b',
        (18 <= radius <= 20)%Z
        /\ (0 <= r' <= r)%Z /\ (0 <= g' <= g)%Z /\ (0 <= b' <= b)%Z
        /\ ds = [drawEllipse x y radius (r', g', b', 220%Z);
                 drawText (x + radius + 3) (y + 4) letter;
                 drawText (x - 20) (y - radius - 10) gesture]
    else
      ds = [drawEllipse x y 16 (r, g, b, 220%Z); drawText (x + 19) (y + 4) letter]
  else ds = [].

End OverlayWindow.

(** ** Doubles against rationals, on a range of pixels *)

(** Whether the smoother on doubles and the smoother on rationals return
    the same integer for all previous and raw values from 0 to [n]. *)
Definition smooth_agrees_upto (n : Z) : bool :=
  forallb (fun prev =>
             forallb (fun raw =>
                        match Binary64.smooth prev raw with
                        | Some z => (z =? smooth prev raw)%Z
                        | None => false
                        end)
                     (seqZ 0 (n + 1)))
          (seqZ 0 (n + 1)).

(** ** Basic facts on the primitives *)

Lemma ltb_lt (a b : Q) : (a <? b) = true <-> a < b.
Proof. unfold Py.ltb, Qlt. apply Z.ltb_lt. Qed.

Lemma ltb_ge (a b : Q) : (a <? b) = false <-> b <= a.
Proof. unfold Py.ltb, Qle. rewrite Z.ltb_ge. reflexivity. Qed.

Lemma gtb_gt (a b : Q) : (a >? b) = true <-> b < a.
Proof. apply ltb_lt. Qed.

Lemma gtb_le (a b : Q) : (a >? b) = false <-> a <= b.
Proof. apply ltb_ge. Qed.

Lemma ltb_spec (a b : Q) : reflect (a < b) (a <? b).
Proof.
  destruct (a <? b) eqn:E; constructor.
  - now apply ltb_lt.
  - apply ltb_ge in E. lra.
Qed.

Lemma max_zero_spec (v : Q) : 0 <= Py.max v 0 /\ (0 <= v -> Py.max v 0 == v) /\ (v <= 0 -> Py.max v 0 == 0).
Proof.
  unfold Py.max, Py.gtb. destruct (ltb_spec v 0); repeat split; intros; lra.
Qed.

Lemma min_one_spec (v : Q) : Py.min v 1 <= 1 /\ (v <= 1 -> Py.min v 1 == v) /\ (1 <= v -> Py.min v 1 == 1).
Proof.
  unfold Py.min. destruct (ltb_spec 1 v); repeat split; intros; lra.
Qed.

Lemma clamp_unit (v : Q) : Py.min (Py.max v 0) 1 == clamp v 0 1.
Proof.
  unfold clamp, Py.min, Py.max, Py.gtb.
  destruct (Qlt_le_dec v 0), (ltb_spec v 0); try (exfalso; lra).
  - destruct (ltb_spec 1 0); [exfalso; lra | reflexivity].
  - destruct (Qlt_le_dec 1 v), (ltb_spec 1 v); try (exfalso; lra); reflexivity.
Qed.

(** ** The mapper at the configured margin never raises *)

Lemma map_with_margin_camera (v : Q) : map_with_margin v CAMERA_MARGIN = Some (mapped v).
Proof. reflexivity. Qed.

Lemma mapped_range (v : Q) : 0 <= mapped v <= 1.
Proof.
  unfold mapped.
  set (w := (v - CAMERA_MARGIN) / (1 - 2 * CAMERA_MARGIN)).
  destruct (max_zero_spec w) as (H0 & _ & _).
  destruct (min_one_spec (Py.max w 0)) as (H1 & H2 & H3).
  split; [| exact H1].
  destruct (Qlt_le_dec 1 (Py.max w 0)); [rewrite H3 | rewrite H2]; lra.
Qed.

Lemma project_eq (scr_w scr_h : Z) (lm : landmarks) :
  project scr_w scr_h lm = Some (tips_of scr_w scr_h lm).
Proof.
  unfold project, tips_of, tip, fingertip_indices. cbn [foldl].
  destruct (contains lm 8), (contains lm 12), (contains lm 16), (contains lm 20);
    reflexivity.
Qed.

(** ** One iteration, in closed form *)

Lemma on_hand_exit (scr_w scr_h : Z) (st : state) (lm : landmarks) :
  exits st lm = true ->
  on_hand scr_w scr_h st lm =
  Some ([set_position (smooth (prev_x st) (cursor scr_w scr_h lm).1)
                      (smooth (prev_y st) (cursor scr_w scr_h lm).2);
         os_exit], None).
Proof.
  unfold exits, on_hand. intros [Hr Hl]%andb_true_iff.
  rewrite Hr. apply negb_true_iff in Hl. rewrite Hl. reflexivity.
Qed.

Lemma on_hand_stay (scr_w scr_h : Z) (st : state) (lm : landmarks) :
  exits st lm = false ->
  on_hand scr_w scr_h st lm =
  Some (set_position (smooth (prev_x st) (cursor scr_w scr_h lm).1)
                     (smooth (prev_y st) (cursor scr_w scr_h lm).2)
          :: button_calls st lm,
        Some (after_hand scr_w scr_h st lm, tips_of scr_w scr_h lm, gestures_of lm)).
Proof.
  unfold exits, on_hand, button_calls, after_hand. intros H.
  assert (Ht : terminate (rock_and_roll lm) (all_fingers_were_down st)
               = Some (rock_and_roll lm)).
  { destruct (rock_and_roll lm), (all_fingers_were_down st); try reflexivity; discriminate. }
  rewrite Ht.
  destruct (grab _ _), (right_click _ _), (click _ _).
  rewrite map_with_margin_camera. cbn [mbind option_bind].
  rewrite map_with_margin_camera. cbn [mbind option_bind].
  rewrite project_eq. reflexivity.
Qed.

Lemma loop_body_exit (scr_w scr_h : Z) (st : state) (lm : landmarks) (key : bool) :
  exits st lm = true ->
  loop_body scr_w scr_h st (captured (Some lm) key) =
  Some ([set_position (smooth (prev_x st) (cursor scr_w scr_h lm).1)
                      (smooth (prev_y st) (cursor scr_w scr_h lm).2);
         os_exit], process_exit).
Proof. intros H. unfold loop_body. rewrite (on_hand_exit _ _ _ _ H). reflexivity. Qed.

Lemma loop_body_stay (scr_w scr_h : Z) (st : state) (lm : landmarks) (key : bool) :
  exits st lm = false ->
  loop_body scr_w scr_h st (captured (Some lm) key) =
  Some (set_position (smooth (prev_x st) (cursor scr_w scr_h lm).1)
                     (smooth (prev_y st) (cursor scr_w scr_h lm).2)
          :: button_calls st lm
          ++ [put_nowait (tips_of scr_w scr_h lm) (gestures_of lm)],
        if key then loop_break else next_frame (after_hand scr_w scr_h st lm)).
Proof. intros H. unfold loop_body. rewrite (on_hand_stay _ _ _ _ H). reflexivity. Qed.

Lemma loop_body_hand_calls (scr_w scr_h : Z) (st : state) (lm : landmarks) :
  exits st lm = false ->
  loop_body scr_w scr_h st (hand lm) =
  Some (hand_calls scr_w scr_h st lm, next_frame (after_hand scr_w scr_h st lm)).
Proof. apply loop_body_stay. Qed.

Lemma loop_body_no_hand (scr_w scr_h : Z) (st : state) (key : bool) :
  loop_body scr_w scr_h st (captured None key) =
  Some ([put_nowait ∅ ∅], if key then loop_break else next_frame st).
Proof. reflexivity. Qed.

Lemma capture_loop_from_exit (scr_w scr_h : Z) (st : state) (lm : landmarks) (frames : list frame) :
  exits st lm = true ->
  capture_loop_from scr_w scr_h st (hand lm :: frames) =
  Some ([[set_position (smooth (prev_x st) (cursor scr_w scr_h lm).1)
                       (smooth (prev_y st) (cursor scr_w scr_h lm).2);
          os_exit]], process_exit).
Proof.
  intros H. cbn [capture_loop_from]. unfold hand.
  rewrite (loop_body_exit _ _ _ _ _ H). reflexivity.
Qed.

Lemma capture_loop_from_stay (scr_w scr_h : Z) (st : state) (lm : landmarks) (frames : list frame) :
  exits st lm = false ->
  capture_loop_from scr_w scr_h st (hand lm :: frames) =
  '(rest, c) ← capture_loop_from scr_w scr_h (after_hand scr_w scr_h st lm) frames;
  Some (hand_calls scr_w scr_h st lm :: rest, c).
Proof.
  intros H. cbn [capture_loop_from]. unfold hand.
  rewrite (loop_body_stay _ _ _ _ _ H). reflexivity.
Qed.

(** ** The termination gesture *)

Lemma rock_and_roll_spec (lm : landmarks) : rock_and_roll lm = true <-> strong_conditions lm.
Proof.
  unfold rock_and_roll, strong_conditions, index_strong_up, pinky_strong_up,
    middle_strong_down, ring_strong_down, STRONG_UP_THRESHOLD, CURL_THRESHOLD.
  rewrite !andb_true_iff, !ltb_lt, !gtb_gt. tauto.
Qed.

Lemma rock_and_roll_false (lm : landmarks) : rock_and_roll lm = false <-> ~ strong_conditions lm.
Proof. rewrite <- rock_and_roll_spec. destruct (rock_and_roll lm); split; congruence. Qed.

Lemma exits_no_rock (st : state) (lm : landmarks) : rock_and_roll lm = false -> exits st lm = false.
Proof. unfold exits. now intros ->. Qed.

Lemma actions_button_calls_no_exit (st : state) (lm : landmarks) (x y : Z) tips gestures :
  occurrences Action.terminate_process
    (actions (set_position x y :: button_calls st lm ++ [put_nowait tips gestures])) = 0%nat.
Proof.
  unfold button_calls, grab, right_click, click.
  destruct (middle_down lm), (middle_grabbed st), (ring_down lm), (ring_was_down st),
    (pinky_down lm), (pinky_was_down st); reflexivity.
Qed.

(** C1.  A frame that satisfies the four strong conditions, right after a
    frame with a hand that does not satisfy them, makes the loop call
    [os._exit] exactly once; the frame before it has cleared
    [all_fingers_were_down], and whatever frames follow (a second frame that
    satisfies the conditions among them) are not processed, so no second
    termination is emitted.  Were the latch already set, the same frame would
    emit no termination and leave the latch set. *)
Theorem exit_gesture_is_edge_triggered
    (scr_w scr_h : Z) (st : state) (lm_prev lm : landmarks) (later : list frame) :
  ~ strong_conditions lm_prev ->
  strong_conditions lm ->
  exists calls_prev st1 calls,
    loop_body scr_w scr_h st (hand lm_prev) = Some (calls_prev, next_frame st1)
    /\ all_fingers_were_down st1 = false
    /\ loop_body scr_w scr_h st1 (hand lm) = Some (calls, process_exit)
    /\ occurrences Action.terminate_process (actions calls) = 1%nat
    /\ capture_loop_from scr_w scr_h st1 (hand lm :: later) = Some ([calls], process_exit)
    /\ emitted Action.terminate_process [calls] = 1%nat
    /\ (forall st2, all_fingers_were_down st2 = true ->
        exists calls2 st3,
          loop_body scr_w scr_h st2 (hand lm) = Some (calls2, next_frame st3)
          /\ occurrences Action.terminate_process (actions calls2) = 0%nat
          /\ all_fingers_were_down st3 = true).
Proof.
  intros Hprev%rock_and_roll_false Hrock%rock_and_roll_spec.
  assert (Hex : exits (after_hand scr_w scr_h st lm_prev) lm = true).
  { unfold exits. cbn. now rewrite Hrock, Hprev. }
  eexists _, (after_hand scr_w scr_h st lm_prev), _.
  split; [apply loop_body_stay, exits_no_rock, Hprev |].
  split; [exact Hprev |].
  split; [apply loop_body_exit, Hex |].
  split; [reflexivity |].
  split; [apply capture_loop_from_exit, Hex |].
  split; [reflexivity |].
  intros st2 H2.
  assert (Hst : exits st2 lm = false) by (unfold exits; now rewrite Hrock, H2).
  eexists _, (after_hand scr_w scr_h st2 lm).
  split; [apply loop_body_stay, Hst |].
  split; [apply actions_button_calls_no_exit | exact Hrock].
Qed.

Lemma exit_gesture_is_edge_triggered_witness :
  ~ strong_conditions open_hand
  /\ strong_conditions rock_hand
  /\ exists calls_prev st1 calls,
      loop_body 1920 1080 initial (hand open_hand) = Some (calls_prev, next_frame st1)
      /\ all_fingers_were_down st1 = false
      /\ loop_body 1920 1080 st1 (hand rock_hand) = Some (calls, process_exit)
      /\ occurrences Action.terminate_process (actions calls) = 1%nat
      /\ capture_loop_from 1920 1080 st1 (hand rock_hand :: [hand rock_hand]) = Some ([calls], process_exit)
      /\ emitted Action.terminate_process [calls] = 1%nat
      /\ (forall st2, all_fingers_were_down st2 = true ->
          exists calls2 st3,
            loop_body 1920 1080 st2 (hand rock_hand) = Some (calls2, next_frame st3)
            /\ occurrences Action.terminate_process (actions calls2) = 0%nat
            /\ all_fingers_were_down st3 = true).
Proof.
  assert (H1 : ~ strong_conditions open_hand).
  { unfold strong_conditions, open_hand, pose; cbn. lra. }
  assert (H2 : strong_conditions rock_hand).
  { unfold strong_conditions, rock_hand, pose; cbn. lra. }
  split; [exact H1 |]. split; [exact H2 |].
  exact (exit_gesture_is_edge_triggered 1920 1080 initial open_hand rock_hand
           [hand rock_hand] H1 H2).
Defined.

(** ** Frames without a hand *)

(** C6.  An iteration whose frame shows no hand hands an empty pair of
    dictionaries to the queue, makes no call on the mouse, and leaves the
    smoother state and the four latches as they were; over any number of
    such frames in a row the state, and with it the cursor position, stays
    what the last frame with a hand left. *)
Theorem no_hand_changes_nothing (scr_w scr_h : Z) (st : state) (key : bool) (n : nat) :
  loop_body scr_w scr_h st (captured None key)
  = Some ([put_nowait ∅ ∅], if key then loop_break else next_frame st)
  /\ actions [put_nowait ∅ ∅] = []
  /\ capture_loop_from scr_w scr_h st (replicate n no_hand)
     = Some (replicate n [put_nowait ∅ ∅], next_frame st).
Proof.
  split; [reflexivity |]. split; [reflexivity |].
  induction n as [| n IH]; [reflexivity |].
  change (replicate (S n) no_hand) with (no_hand :: replicate n no_hand).
  cbn [capture_loop_from].
  change (loop_body scr_w scr_h st no_hand) with (Some ([put_nowait ∅ ∅], next_frame st)).
  cbn [mbind option_bind]. rewrite IH. reflexivity.
Qed.

(** ** Runs over frames with a hand *)

Lemma capture_loop_from_hands (scr_w scr_h : Z) (lms : list landmarks) (st : state) :
  Forall (fun lm => rock_and_roll lm = false) lms ->
  capture_loop_from scr_w scr_h st (map hand lms)
  = Some ((hand_run scr_w scr_h st lms).1, next_frame (hand_run scr_w scr_h st lms).2).
Proof.
  intros H. revert st. induction H as [| lm lms Hlm _ IH]; intros st; [reflexivity |].
  change (map hand (lm :: lms)) with (hand lm :: map hand lms).
  rewrite capture_loop_from_stay by (apply exits_no_rock, Hlm).
  rewrite IH. reflexivity.
Qed.

Lemma occurrences_app (a : Action.t) (l l' : list Action.t) :
  occurrences a (l ++ l') = (occurrences a l + occurrences a l')%nat.
Proof. induction l as [| b l IH]; [reflexivity |]. cbn. rewrite IH. lia. Qed.

Lemma emitted_cons (a : Action.t) (calls : list call) (its : list (list call)) :
  emitted a (calls :: its) = (occurrences a (actions calls) + emitted a its)%nat.
Proof. unfold emitted. cbn. apply occurrences_app. Qed.

(** What the buttons do in one iteration with a hand. *)
Lemma hand_calls_buttons (scr_w scr_h : Z) (st : state) (lm : landmarks) :
  let acts := actions (hand_calls scr_w scr_h st lm) in
  occurrences (Action.press Button.left) acts
    = (if middle_down lm && negb (middle_grabbed st) then 1 else 0)%nat
  /\ occurrences (Action.release Button.left) acts
    = (if negb (middle_down lm) && middle_grabbed st then 1 else 0)%nat
  /\ occurrences (Action.click Button.right) acts
    = (if ring_down lm && negb (ring_was_down st) then 1 else 0)%nat
  /\ occurrences (Action.click Button.left) acts
    = (if pinky_down lm && negb (pinky_was_down st) then 1 else 0)%nat
  /\ occurrences (Action.press Button.right) acts = 0%nat
  /\ occurrences (Action.release Button.right) acts = 0%nat.
Proof.
  unfold hand_calls, button_calls, grab, right_click, click.
  destruct (middle_down lm), (middle_grabbed st), (ring_down lm), (ring_was_down st),
    (pinky_down lm), (pinky_was_down st); cbn; tauto.
Qed.

Lemma after_hand_latches (scr_w scr_h : Z) (st : state) (lm : landmarks) :
  middle_grabbed (after_hand scr_w scr_h st lm) = middle_down lm
  /\ ring_was_down (after_hand scr_w scr_h st lm) = ring_down lm
  /\ pinky_was_down (after_hand scr_w scr_h st lm) = pinky_down lm.
Proof.
  unfold after_hand, grab, right_click, click. cbn.
  destruct (middle_down lm), (middle_grabbed st), (ring_down lm), (ring_was_down st),
    (pinky_down lm), (pinky_was_down st); cbn; tauto.
Qed.

(** ** The grab latch *)

Lemma rock_and_roll_middle_down (lm : landmarks) :
  rock_and_roll lm = true -> middle_down lm = true.
Proof.
  intros (_ & _ & H & _)%rock_and_roll_spec. apply gtb_gt. lra.
Qed.

Lemma middle_up_no_rock (lm : landmarks) : middle_down lm = false -> rock_and_roll lm = false.
Proof.
  intros H. destruct (rock_and_roll lm) eqn:E; [| reflexivity].
  apply rock_and_roll_middle_down in E. congruence.
Qed.

Lemma held_run (scr_w scr_h : Z) (lms : list landmarks) (st : state) :
  middle_grabbed st = true ->
  Forall (fun lm => middle_down lm = true) lms ->
  emitted (Action.press Button.left) (hand_run scr_w scr_h st lms).1 = 0%nat
  /\ emitted (Action.release Button.left) (hand_run scr_w scr_h st lms).1 = 0%nat
  /\ middle_grabbed (hand_run scr_w scr_h st lms).2 = true.
Proof.
  intros Hst H. revert st Hst.
  induction H as [| lm lms Hlm _ IH]; intros st Hst; [now cbn |].
  cbn [hand_run fst snd]. rewrite !emitted_cons.
  destruct (hand_calls_buttons scr_w scr_h st lm) as (Hp & Hr & _).
  cbv zeta in Hp, Hr. rewrite Hp, Hr, Hlm, Hst. cbn [andb negb Nat.add].
  apply IH. destruct (after_hand_latches scr_w scr_h st lm) as (-> & _). exact Hlm.
Qed.

(** C2, as the code has it.  In a run of frames with a hand none of which
    triggers the termination gesture, the grab is level-triggered: from a
    released latch, [N >= 1] frames with the middle finger down emit one
    [press(left)], on the first of them, and no [release(left)]; the next
    frame with the finger up emits one [release(left)]; and a frame with the
    finger down after that emits [press(left)] again.  (The two calls of the
    pinky's click are read as one click, not as a press and a release.) *)
Theorem grab_is_level_triggered
    (scr_w scr_h : Z) (st : state) (lm : landmarks) (downs : list landmarks)
    (lm_up lm_again : landmarks) :
  middle_grabbed st = false ->
  Forall (fun lm => middle_down lm = true /\ rock_and_roll lm = false) (lm :: downs) ->
  middle_down lm_up = false ->
  middle_down lm_again = true ->
  rock_and_roll lm_again = false ->
  exists first rest st1 calls_up st2 calls_again st3,
    capture_loop_from scr_w scr_h st (map hand (lm :: downs))
      = Some (first :: rest, next_frame st1)
    /\ occurrences (Action.press Button.left) (actions first) = 1%nat
    /\ emitted (Action.press Button.left) rest = 0%nat
    /\ emitted (Action.release Button.left) (first :: rest) = 0%nat
    /\ loop_body scr_w scr_h st1 (hand lm_up) = Some (calls_up, next_frame st2)
    /\ occurrences (Action.release Button.left) (actions calls_up) = 1%nat
    /\ occurrences (Action.press Button.left) (actions calls_up) = 0%nat
    /\ loop_body scr_w scr_h st2 (hand lm_again) = Some (calls_again, next_frame st3)
    /\ occurrences (Action.press Button.left) (actions calls_again) = 1%nat
    /\ occurrences (Action.release Button.left) (actions calls_again) = 0%nat.
Proof.
  intros Hst Hdowns Hup Hagain Hrock.
  assert (Hno : Forall (fun lm => rock_and_roll lm = false) (lm :: downs)).
  { eapply Forall_impl; [exact Hdowns |]. now intros ? [_ ?]. }
  apply Forall_cons in Hdowns as [[Hlm _] Hdowns].
  assert (Hdowns' : Forall (fun lm => middle_down lm = true) downs).
  { eapply Forall_impl; [exact Hdowns |]. now intros ? [? _]. }
  set (s0 := after_hand scr_w scr_h st lm).
  assert (Hs0 : middle_grabbed s0 = true).
  { unfold s0. destruct (after_hand_latches scr_w scr_h st lm) as (-> & _). exact Hlm. }
  destruct (held_run scr_w scr_h downs s0 Hs0 Hdowns') as (Hp & Hr & Hg).
  set (s1 := (hand_run scr_w scr_h s0 downs).2) in *.
  set (s2 := after_hand scr_w scr_h s1 lm_up).
  assert (Hs2 : middle_grabbed s2 = false).
  { unfold s2. destruct (after_hand_latches scr_w scr_h s1 lm_up) as (-> & _). exact Hup. }
  exists (hand_calls scr_w scr_h st lm), (hand_run scr_w scr_h s0 downs).1, s1,
    (hand_calls scr_w scr_h s1 lm_up), s2,
    (hand_calls scr_w scr_h s2 lm_again), (after_hand scr_w scr_h s2 lm_again).
  destruct (hand_calls_buttons scr_w scr_h st lm) as (Hp0 & Hr0 & _).
  destruct (hand_calls_buttons scr_w scr_h s1 lm_up) as (Hp1 & Hr1 & _).
  destruct (hand_calls_buttons scr_w scr_h s2 lm_again) as (Hp2 & Hr2 & _).
  cbv zeta in Hp0, Hr0, Hp1, Hr1, Hp2, Hr2.
  rewrite Hlm, Hst in Hp0, Hr0. rewrite Hup, Hg in Hp1, Hr1. rewrite Hagain, Hs2 in Hp2, Hr2.
  split; [rewrite (capture_loop_from_hands _ _ _ _ Hno); reflexivity |].
  split; [exact Hp0 |]. split; [exact Hp |].
  split; [rewrite emitted_cons, Hr0, Hr; reflexivity |].
  split; [apply loop_body_hand_calls, exits_no_rock, middle_up_no_rock, Hup |].
  split; [exact Hr1 |]. split; [exact Hp1 |].
  split; [apply loop_body_hand_calls, exits_no_rock, Hrock |].
  split; [exact Hp2 | exact Hr2].
Qed.

Lemma grab_is_level_triggered_witness :
  middle_grabbed initial = false
  /\ Forall (fun lm => middle_down lm = true /\ rock_and_roll lm = false)
       [middle_curled; middle_curled; middle_curled]
  /\ middle_down open_hand = false
  /\ middle_down middle_curled = true
  /\ rock_and_roll middle_curled = false
  /\ exists first rest st1 calls_up st2 calls_again st3,
      capture_loop_from 1920 1080 initial
        (map hand [middle_curled; middle_curled; middle_curled])
        = Some (first :: rest, next_frame st1)
      /\ occurrences (Action.press Button.left) (actions first) = 1%nat
      /\ emitted (Action.press Button.left) rest = 0%nat
      /\ emitted (Action.release Button.left) (first :: rest) = 0%nat
      /\ loop_body 1920 1080 st1 (hand open_hand) = Some (calls_up, next_frame st2)
      /\ occurrences (Action.release Button.left) (actions calls_up) = 1%nat
      /\ occurrences (Action.press Button.left) (actions calls_up) = 0%nat
      /\ loop_body 1920 1080 st2 (hand middle_curled) = Some (calls_again, next_frame st3)
      /\ occurrences (Action.press Button.left) (actions calls_again) = 1%nat
      /\ occurrences (Action.release Button.left) (actions calls_again) = 0%nat.
Proof.
  assert (H1 : middle_down middle_curled = true) by reflexivity.
  assert (H2 : rock_and_roll middle_curled = false) by reflexivity.
  assert (H3 : middle_down open_hand = false) by reflexivity.
  assert (H0 : Forall (fun lm => middle_down lm = true /\ rock_and_roll lm = false)
                 [middle_curled; middle_curled; middle_curled])
    by (repeat constructor).
  repeat (split; [first [reflexivity | assumption] |]).
  exact (grab_is_level_triggered 1920 1080 initial middle_curled
           [middle_curled; middle_curled] open_hand middle_curled
           eq_refl H0 H3 H1 H2).
Defined.

(** C2, as stated, fails: the termination gesture has the middle finger
    down, and a frame that shows it on a released latch ends the process
    before any button is pressed. *)
Lemma grab_preempted_by_exit :
  middle_grabbed initial = false
  /\ middle_down rock_hand = true
  /\ capture_loop 1920 1080 [hand rock_hand]
     = Some ([[set_position 288 121; os_exit]], process_exit)
  /\ emitted (Action.press Button.left) [[set_position 288 121; os_exit]] = 0%nat.
Proof. repeat split; vm_compute; reflexivity. Qed.

(** ** The click latches *)

Lemma clicks_run (scr_w scr_h : Z) (lms : list landmarks) (st : state) :
  let its := (hand_run scr_w scr_h st lms).1 in
  emitted (Action.click Button.right) its
    = rising_edges (ring_was_down st) (map ring_down lms)
  /\ emitted (Action.click Button.left) its
    = rising_edges (pinky_was_down st) (map pinky_down lms)
  /\ emitted (Action.press Button.right) its = 0%nat
  /\ emitted (Action.release Button.right) its = 0%nat.
Proof.
  revert st. induction lms as [| lm lms IH]; intros st; [now cbn |].
  cbn [hand_run fst snd map rising_edges]. cbv zeta. rewrite !emitted_cons.
  destruct (hand_calls_buttons scr_w scr_h st lm) as (_ & _ & Hr & Hl & Hpr & Hrr).
  cbv zeta in Hr, Hl, Hpr, Hrr. rewrite Hr, Hl, Hpr, Hrr.
  specialize (IH (after_hand scr_w scr_h st lm)). cbv zeta in IH.
  destruct IH as (IHr & IHl & IHp & IHq). rewrite IHr, IHl, IHp, IHq.
  destruct (after_hand_latches scr_w scr_h st lm) as (_ & -> & ->).
  repeat split; reflexivity.
Qed.

(** C3, as the code has it.  In a run of frames with a hand none of which
    triggers the termination gesture, the ring finger and the pinky are
    edge-triggered one-shots: the run emits one click of the right button
    per false-to-true edge of [ring_down] and one click of the left button
    per false-to-true edge of [pinky_down], each a [press] immediately
    followed by the [release] of that button; frames on which the finger
    stays down add nothing, the right button is never pressed or released
    otherwise, and down, down, up, down makes two edges. *)
Theorem clicks_are_edge_triggered (scr_w scr_h : Z) (st : state) (lms : list landmarks) :
  Forall (fun lm => rock_and_roll lm = false) lms ->
  exists its st',
    capture_loop_from scr_w scr_h st (map hand lms) = Some (its, next_frame st')
    /\ emitted (Action.click Button.right) its
       = rising_edges (ring_was_down st) (map ring_down lms)
    /\ emitted (Action.click Button.left) its
       = rising_edges (pinky_was_down st) (map pinky_down lms)
    /\ emitted (Action.press Button.right) its = 0%nat
    /\ emitted (Action.release Button.right) its = 0%nat
    /\ rising_edges false [true; true; false; true] = 2%nat.
Proof.
  intros H. eexists _, _.
  split; [apply capture_loop_from_hands, H |].
  destruct (clicks_run scr_w scr_h lms st) as (Hr & Hl & Hp & Hq). cbv zeta in *.
  repeat split; assumption || reflexivity.
Qed.

Lemma clicks_are_edge_triggered_witness :
  Forall (fun lm => rock_and_roll lm = false)
    [ring_curled; ring_curled; open_hand; ring_curled]
  /\ exists its st',
      capture_loop_from 1920 1080 initial
        (map hand [ring_curled; ring_curled; open_hand; ring_curled])
        = Some (its, next_frame st')
      /\ emitted (Action.click Button.right) its
         = rising_edges (ring_was_down initial)
             (map ring_down [ring_curled; ring_curled; open_hand; ring_curled])
      /\ emitted (Action.click Button.left) its
         = rising_edges (pinky_was_down initial)
             (map pinky_down [ring_curled; ring_curled; open_hand; ring_curled])
      /\ emitted (Action.press Button.right) its = 0%nat
      /\ emitted (Action.release Button.right) its = 0%nat
      /\ rising_edges false [true; true; false; true] = 2%nat.
Proof.
  assert (H : Forall (fun lm => rock_and_roll lm = false)
                [ring_curled; ring_curled; open_hand; ring_curled])
    by (repeat constructor).
  split; [exact H |].
  exact (clicks_are_edge_triggered 1920 1080 initial
           [ring_curled; ring_curled; open_hand; ring_curled] H).
Defined.

(** C3, as stated, fails: the termination gesture has the ring finger down,
    and a frame that shows it is a false-to-true edge of [ring_down] on
    which the process ends without a click. *)
Lemma ring_click_preempted_by_exit :
  rising_edges (ring_was_down initial) (map ring_down [rock_hand]) = 1%nat
  /\ capture_loop 1920 1080 [hand rock_hand]
     = Some ([[set_position 288 121; os_exit]], process_exit)
  /\ emitted (Action.click Button.right) [[set_position 288 121; os_exit]] = 0%nat.
Proof. repeat split; vm_compute; reflexivity. Qed.

(** ** The order of the steps of one iteration *)

Lemma loop_body_hand (scr_w scr_h : Z) (st : state) (lm : landmarks) (key : bool) :
  loop_body scr_w scr_h st (captured (Some lm) key) =
  Some (set_position (smooth (prev_x st) (cursor scr_w scr_h lm).1)
                     (smooth (prev_y st) (cursor scr_w scr_h lm).2)
          :: (if exits st lm then [os_exit]
              else button_calls st lm
                   ++ [put_nowait (tips_of scr_w scr_h lm) (gestures_of lm)]),
        if exits st lm then process_exit
        else if key then loop_break
        else next_frame (after_hand scr_w scr_h st lm)).
Proof.
  destruct (exits st lm) eqn:E.
  - apply loop_body_exit, E.
  - apply loop_body_stay, E.
Qed.

(** C7, as the code has it.  With a hand in the frame, an iteration first
    maps the index fingertip, smooths the cursor and moves the pointer; then
    it evaluates the termination gesture and, if that triggers, exits at
    once: no latch is updated, no fingertip is projected and nothing is put
    on the queue.  Otherwise it runs the grab, the right click and the left
    click, in this order, and last it puts the projected fingertips and the
    active gestures on the queue. *)
Theorem iteration_order (scr_w scr_h : Z) (st : state) (lm : landmarks) (key : bool) :
  loop_body scr_w scr_h st (captured (Some lm) key) =
  Some (set_position (smooth (prev_x st) (cursor scr_w scr_h lm).1)
                     (smooth (prev_y st) (cursor scr_w scr_h lm).2)
          :: (if exits st lm then [os_exit]
              else (grab (middle_down lm) (middle_grabbed st)).1
                   ++ (right_click (ring_down lm) (ring_was_down st)).1
                   ++ (click (pinky_down lm) (pinky_was_down st)).1
                   ++ [put_nowait (tips_of scr_w scr_h lm) (gestures_of lm)]),
        if exits st lm then process_exit
        else if key then loop_break
        else next_frame (after_hand scr_w scr_h st lm)).
Proof.
  destruct (exits st lm) eqn:E.
  - apply loop_body_exit, E.
  - rewrite (loop_body_stay _ _ _ _ _ E). unfold button_calls.
    rewrite <- !app_assoc. reflexivity.
Qed.

(** C7, as stated, fails: the pointer has already been moved when the
    termination gesture is evaluated, and it is moved before the buttons. *)
Lemma cursor_moves_first :
  loop_body 1920 1080 initial (hand rock_hand)
  = Some ([set_position 288 121; os_exit], process_exit)
  /\ actions [set_position 288 121; os_exit]
     = [Action.move_to 288 121; Action.terminate_process]
  /\ ~ exit_before_cursor 1920 1080
  /\ ~ latches_before_cursor 1920 1080.
Proof.
  assert (H : loop_body 1920 1080 initial (hand rock_hand)
              = Some ([set_position 288 121; os_exit], process_exit))
    by (vm_compute; reflexivity).
  split; [exact H |]. split; [reflexivity |]. split.
  - intros Hc. specialize (Hc _ _ _ _ H). discriminate Hc.
  - intros Hc.
    destruct (Hc initial middle_curled false _ _ [] _ _ _
                (loop_body_hand_calls 1920 1080 initial middle_curled eq_refl) eq_refl
                Button.left) as [Hp _].
    apply Hp. left. reflexivity.
Qed.

(** ** The fingertip dictionary *)

(** What the loop over [fingertip_indices] is written to do: when the test
    [i in lm] holds for the four fingertips, the dictionary has exactly
    their four keys, each bound to the landmark's coordinates passed through
    [map_with_margin] at margin 0.10, scaled by the screen size and
    truncated to integers. *)
Lemma tips_of_when_contained (scr_w scr_h : Z) (lm : landmarks) :
  (forall i, In i fingertip_indices -> contains lm i = true) ->
  dom (tips_of scr_w scr_h lm)
    = ({[ (0, 8); (0, 12); (0, 16); (0, 20) ]} : gset (nat * nat))%nat
  /\ forall i, In i fingertip_indices ->
       exists fx fy,
         map_with_margin (Landmark.x (lm i)) CAMERA_MARGIN = Some fx
         /\ map_with_margin (Landmark.y (lm i)) CAMERA_MARGIN = Some fy
         /\ tips_of scr_w scr_h lm !! (0%nat, i)
            = Some (Py.int (inject_Z scr_w * fx), Py.int (inject_Z scr_h * fy)).
Proof.
  intros H. unfold tips_of, fingertip_indices in *. cbn [foldl].
  rewrite !H by (cbn; tauto). split.
  - rewrite !dom_insert_L, dom_empty_L. set_solver.
  - intros i Hi.
    exists (mapped (Landmark.x (lm i))), (mapped (Landmark.y (lm i))).
    split; [reflexivity |]. split; [reflexivity |].
    destruct Hi as [<- | [<- | [<- | [<- | []]]]]; now simplify_map_eq.
Qed.

(** With the test [i in lm] false the loop fills nothing in. *)
Lemma tips_of_when_not_contained (scr_w scr_h : Z) (lm : landmarks) :
  (forall i, In i fingertip_indices -> contains lm i = false) ->
  tips_of scr_w scr_h lm = ∅.
Proof.
  intros H. unfold tips_of, fingertip_indices in *. cbn [foldl].
  now rewrite !H by (cbn; tauto).
Qed.

(** C8 fails on the code.  The guard of the projection loop is [i in lm],
    asked of MediaPipe's sequence of landmark objects instead of the
    dictionary [landmarks] that the loop body builds with the indices as
    keys; an int is not an element of that sequence.  For the hand of
    scenario A, from the initial state, the frame output handed to the queue
    has an empty fingertip dictionary. *)
Theorem fingertips_left_out :
  exists active_gestures st',
    loop_body 1920 1080 initial (hand centred)
    = Some ([set_position 288 162; put_nowait ∅ active_gestures], next_frame st')
    /\ active_gestures !! (0%nat, 8%nat) = Some true.
Proof.
  eexists _, _. split.
  - rewrite loop_body_hand_calls by reflexivity. reflexivity.
  - reflexivity.
Qed.

(** ** The coordinate mapper *)

Lemma clamp_unit_low (w : Q) : w <= 0 -> Py.min (Py.max w 0) 1 == 0.
Proof.
  intros H. destruct (max_zero_spec w) as (_ & _ & H0). specialize (H0 H).
  destruct (min_one_spec (Py.max w 0)) as (_ & H1 & _). rewrite H1; lra.
Qed.

Lemma clamp_unit_high (w : Q) : 1 <= w -> Py.min (Py.max w 0) 1 == 1.
Proof.
  intros H. destruct (max_zero_spec w) as (_ & H0 & _).
  destruct (min_one_spec (Py.max w 0)) as (_ & _ & H1). apply H1. rewrite H0; lra.
Qed.


(** ** The coordinate mapper on doubles *)

(** Over the rationals the code computes the formula of the specification
    exactly ([clamp_unit]).  The properties below are about the code as
    CPython runs it, on doubles, where each of the three operations of
    [map_with_margin] rounds.  They rest on the specification of the
    primitive operations by [SpecFloat] ([FloatAxioms]). *)

(** *** Comparisons *)





(** *** Rounding keeps the sign and never yields a NaN *)








(** *** The mapper and the clamp *)








(** *** The sign of a difference *)










(** *** The far margin *)






(** *** The raw pixel coordinates *)





(** ** The cursor smoother *)

Lemma smooth_quot (prev raw : Z) :
  smooth prev raw = ((prev * 100 + 30 * (raw - prev) * 1) ÷ 100)%Z.
Proof. reflexivity. Qed.

(** On the screen (no negative coordinate) the smoother is the floor of
    [0.7 * prev + 0.3 * raw]. *)
Lemma smooth_floor (prev raw : Z) :
  (0 <= prev)%Z -> (0 <= raw)%Z ->
  (100 * smooth prev raw <= 70 * prev + 30 * raw < 100 * smooth prev raw + 100)%Z.
Proof.
  intros Hp Hr. rewrite smooth_quot.
  assert (H : (0 <= prev * 100 + 30 * (raw - prev) * 1)%Z) by lia.
  rewrite Z.quot_div_nonneg by lia.
  Z.div_mod_to_equations. lia.
Qed.

Lemma smooth_between (prev raw : Z) :
  (0 <= prev)%Z -> (0 <= raw)%Z ->
  (Z.min prev raw <= smooth prev raw <= Z.max prev raw)%Z.
Proof. intros Hp Hr. pose proof (smooth_floor prev raw Hp Hr). lia. Qed.

Lemma settle_succ (n : nat) (prev raw : Z) :
  settle (S n) prev raw = settle n (smooth prev raw) raw.
Proof.
  unfold settle. induction n as [| n IH]; [reflexivity |].
  cbn [Nat.iter nat_rect] in *. now rewrite IH.
Qed.

Lemma settle_nonneg (raw : Z) (k : nat) (prev : Z) :
  (0 <= raw)%Z -> (0 <= prev)%Z -> (0 <= settle k prev raw)%Z.
Proof.
  intros Hr. revert prev. induction k as [| k IH]; intros prev Hp; [exact Hp |].
  rewrite settle_succ. apply IH.
  pose proof (smooth_between prev raw Hp Hr). lia.
Qed.

Lemma settle_band (raw : Z) (k : nat) (prev : Z) :
  (0 <= raw)%Z -> (0 <= prev)%Z ->
  (Z.abs (raw - prev) <= Z.of_nat k \/ raw - 3 <= prev <= raw)%Z ->
  (raw - 3 <= settle k prev raw <= raw)%Z
  /\ ((raw <= prev)%Z -> settle k prev raw = raw).
Proof.
  intros Hr. revert prev. induction k as [| k IH]; intros prev Hp H.
  - cbn. lia.
  - rewrite settle_succ.
    pose proof (smooth_floor prev raw Hp Hr) as Hs.
    destruct (IH (smooth prev raw)) as [IH1 IH2]; [lia | lia |].
    split; [exact IH1 |]. intros Hge. apply IH2. lia.
Qed.

Lemma smooth_stalls (prev raw : Z) :
  (0 <= prev)%Z -> (raw - 3 <= prev <= raw)%Z -> smooth prev raw = prev.
Proof. intros Hp H. pose proof (smooth_floor prev raw Hp ltac:(lia)). lia. Qed.

Lemma inj_le_iff_aux (a b : Z) : (a <= b)%Z -> inject_Z a <= inject_Z b.
Proof. intros H. now rewrite <- Zle_Qle. Qed.

Lemma inj_lt_iff_aux (a b : Z) : (a < b)%Z -> inject_Z a < inject_Z b.
Proof. intros H. now rewrite <- Zlt_Qlt. Qed.

Lemma Qnum_inject_sub (q : Q) (z : Z) :
  inject_Z z <= q < inject_Z z + 1 -> (0 <= q) -> Py.int q = z.
Proof.
  intros [H1 H2] H0. unfold Py.int.
  destruct q as [n d]. unfold Qle, Qlt in *. cbn in *.
  rewrite Z.quot_div_nonneg by lia.
  symmetry. apply Z.div_unique with (r := (n - z * Z.pos d)%Z); lia.
Qed.

(** C5, as the code has it.  On each axis the smoother returns
    [int(prev + 0.30 * (raw - prev))].  Before the truncation the step is
    exactly 0.30 of the gap; the truncated value is less than one pixel away
    from it, and lies between the previous and the raw value.  Fed with the
    same raw value again and again, the output stops changing after at most
    as many steps as the gap is wide, at most 3 pixels below the raw value
    (at the raw value itself when it started above it).  From (0, 0) and a
    raw position (960, 540), the one scenario A gives, the first output is
    (288, 162).  The loop updates [prev_x] and [prev_y] separately with it
    and moves the pointer there. *)
Theorem smoother_truncated_ema (prev raw : Z) (k : nat) :
  (0 <= prev)%Z ->
  (0 <= raw)%Z ->
  (Z.abs (raw - prev) <= Z.of_nat k)%Z ->
  let exact := inject_Z prev + 0.30 * (inject_Z raw - inject_Z prev) in
  exact - inject_Z prev == 0.30 * (inject_Z raw - inject_Z prev)
  /\ smooth prev raw = Py.int exact
  /\ inject_Z (smooth prev raw) <= exact < inject_Z (smooth prev raw) + 1
  /\ (Z.min prev raw <= smooth prev raw <= Z.max prev raw)%Z
  /\ (raw - 3 <= settle k prev raw <= raw)%Z
  /\ smooth (settle k prev raw) raw = settle k prev raw
  /\ ((raw <= prev)%Z -> settle k prev raw = raw)
  /\ (smooth 0 960 = 288%Z /\ smooth 0 540 = 162%Z)
  /\ cursor 1920 1080 centred = (960, 540)%Z
  /\ (forall scr_w scr_h st lm,
        exits st lm = false ->
        exists rest st',
          loop_body scr_w scr_h st (hand lm)
          = Some (set_position (smooth (prev_x st) (cursor scr_w scr_h lm).1)
                               (smooth (prev_y st) (cursor scr_w scr_h lm).2)
                    :: rest, next_frame st')
          /\ prev_x st' = smooth (prev_x st) (cursor scr_w scr_h lm).1
          /\ prev_y st' = smooth (prev_y st) (cursor scr_w scr_h lm).2).
Proof.
  intros Hp Hr Hk exact.
  pose proof (smooth_floor prev raw Hp Hr) as Hs.
  assert (Hex : inject_Z (smooth prev raw) <= exact < inject_Z (smooth prev raw) + 1).
  { unfold exact. destruct Hs as [Hs1 Hs2].
    apply (inj_le_iff_aux _ _) in Hs1. apply (inj_lt_iff_aux _ _) in Hs2.
    revert Hs1 Hs2. rewrite !inject_Z_plus, !inject_Z_mult.
    change (inject_Z 100) with 100. change (inject_Z 70) with 70.
    change (inject_Z 30) with 30. lra. }
  destruct (settle_band raw k prev Hr Hp (or_introl Hk)) as [Hb1 Hb2].
  split; [unfold exact; ring |].
  split.
  { symmetry. apply Qnum_inject_sub; [exact Hex |].
    unfold exact. pose proof (inj_le_iff_aux 0 prev Hp).
    pose proof (inj_le_iff_aux 0 raw Hr). change (inject_Z 0) with 0 in *. lra. }
  split; [exact Hex |].
  split; [apply smooth_between; assumption |].
  split; [exact Hb1 |].
  split; [apply smooth_stalls; [apply settle_nonneg; assumption | lia] |].
  split; [exact Hb2 |].
  split; [split; reflexivity |].
  split; [reflexivity |].
  intros scr_w scr_h st lm E. eexists _, _.
  split; [apply loop_body_hand_calls, E |]. split; reflexivity.
Qed.

Lemma smoother_truncated_ema_witness :
  (0 <= 0)%Z
  /\ (0 <= 10)%Z
  /\ (Z.abs (10 - 0) <= Z.of_nat 10)%Z
  /\ let exact := inject_Z 0 + 0.30 * (inject_Z 10 - inject_Z 0) in
     exact - inject_Z 0 == 0.30 * (inject_Z 10 - inject_Z 0)
     /\ smooth 0 10 = Py.int exact
     /\ inject_Z (smooth 0 10) <= exact < inject_Z (smooth 0 10) + 1
     /\ (Z.min 0 10 <= smooth 0 10 <= Z.max 0 10)%Z
     /\ (10 - 3 <= settle 10 0 10 <= 10)%Z
     /\ smooth (settle 10 0 10) 10 = settle 10 0 10
     /\ ((10 <= 0)%Z -> settle 10 0 10 = 10%Z)
     /\ (smooth 0 960 = 288%Z /\ smooth 0 540 = 162%Z)
     /\ cursor 1920 1080 centred = (960, 540)%Z
     /\ (forall scr_w scr_h st lm,
           exits st lm = false ->
           exists rest st',
             loop_body scr_w scr_h st (hand lm)
             = Some (set_position (smooth (prev_x st) (cursor scr_w scr_h lm).1)
                                  (smooth (prev_y st) (cursor scr_w scr_h lm).2)
                       :: rest, next_frame st')
             /\ prev_x st' = smooth (prev_x st) (cursor scr_w scr_h lm).1
             /\ prev_y st' = smooth (prev_y st) (cursor scr_w scr_h lm).2).
Proof.
  assert (H1 : (0 <= 0)%Z) by lia.
  assert (H2 : (0 <= 10)%Z) by lia.
  assert (H3 : (Z.abs (10 - 0) <= Z.of_nat 10)%Z) by lia.
  split; [exact H1 |]. split; [exact H2 |]. split; [exact H3 |].
  exact (smoother_truncated_ema 0 10 10 H1 H2 H3).
Defined.

(** C5, as stated, fails: with the previous value 0 and the raw value 3 the
    smoother returns 0, not 0.9, so the step is not 0.30 of the gap; and it
    returns 0 for ever after, three pixels away from the raw value. *)
Lemma smoother_stalls_below_raw :
  smooth 0 3 = 0%Z
  /\ (forall n, settle n 0 3 = 0%Z)
  /\ ~ exact_alpha_step
  /\ ~ settles_within_rounding.
Proof.
  assert (Hn : forall n, settle n 0 3 = 0%Z).
  { induction n as [| n IH]; [reflexivity |]. rewrite settle_succ. exact IH. }
  split; [reflexivity |]. split; [exact Hn |]. split.
  - intros H. specialize (H 0%Z 3%Z). vm_compute in H. discriminate H.
  - intros H. destruct (H 0%Z 3%Z) as [n Hk].
    specialize (Hk n (Nat.le_refl n)). rewrite Hn in Hk. lia.
Qed.

(** ** The pointer stays on the screen *)

Lemma int_bounds (q : Q) (n : Z) : 0 <= q <= inject_Z n -> (0 <= Py.int q <= n)%Z.
Proof.
  destruct q as [a b]. unfold Py.int, Qle. cbn. intros [H0 H1].
  rewrite Z.quot_div_nonneg by lia. split.
  - apply Z.div_pos; lia.
  - apply Z.div_le_upper_bound; lia.
Qed.

Lemma scaled_bounds (r : Q) (n : Z) :
  0 <= r <= 1 -> (0 <= n)%Z ->
  0 <= r * inject_Z n <= inject_Z n /\ 0 <= inject_Z n * r <= inject_Z n.
Proof.
  intros Hr Hn. apply inj_le_iff_aux in Hn. change (inject_Z 0) with 0 in Hn. nra.
Qed.

Lemma cursor_bounds (scr_w scr_h : Z) (lm : landmarks) :
  (0 <= scr_w)%Z -> (0 <= scr_h)%Z ->
  (0 <= (cursor scr_w scr_h lm).1 <= scr_w)%Z
  /\ (0 <= (cursor scr_w scr_h lm).2 <= scr_h)%Z.
Proof.
  intros Hw Hh. unfold cursor. cbn [fst snd].
  split; apply int_bounds, scaled_bounds; auto using mapped_range.
Qed.

Lemma loop_body_bounded (scr_w scr_h : Z) (st : state) (f : frame) :
  (0 <= scr_w)%Z -> (0 <= scr_h)%Z -> bounded scr_w scr_h st ->
  exists calls c,
    loop_body scr_w scr_h st f = Some (calls, c)
    /\ Forall (on_screen scr_w scr_h) calls
    /\ forall st', c = next_frame st' -> bounded scr_w scr_h st'.
Proof.
  intros Hw Hh [Hx Hy]. destruct f as [| [lm |] key].
  - eexists _, _. split; [reflexivity |]. split; [constructor |].
    intros st' [= <-]. now split.
  - destruct (cursor_bounds scr_w scr_h lm Hw Hh) as [Hcx Hcy].
    pose proof (smooth_between (prev_x st) (cursor scr_w scr_h lm).1
                  ltac:(lia) ltac:(lia)) as Hsx.
    pose proof (smooth_between (prev_y st) (cursor scr_w scr_h lm).2
                  ltac:(lia) ltac:(lia)) as Hsy.
    eexists _, _. split; [apply loop_body_hand |]. split.
    + constructor; [cbn [on_screen]; lia |].
      destruct (exits st lm); [repeat constructor |].
      apply Forall_app. split; [| repeat constructor].
      unfold button_calls, grab, right_click, click.
      destruct (middle_down lm), (middle_grabbed st), (ring_down lm), (ring_was_down st),
        (pinky_down lm), (pinky_was_down st); repeat constructor.
    + intros st' Hc. destruct (exits st lm); [discriminate |].
      destruct key; [discriminate |]. injection Hc as <-.
      unfold bounded, after_hand. cbn [prev_x prev_y]. lia.
  - eexists _, _. split; [apply loop_body_no_hand |]. split; [repeat constructor |].
    intros st' Hc. destruct key; [discriminate |]. injection Hc as <-. now split.
Qed.

Lemma capture_loop_from_bounded (scr_w scr_h : Z) (frames : list frame) (st : state) :
  (0 <= scr_w)%Z -> (0 <= scr_h)%Z -> bounded scr_w scr_h st ->
  exists its c,
    capture_loop_from scr_w scr_h st frames = Some (its, c)
    /\ Forall (Forall (on_screen scr_w scr_h)) its
    /\ forall st', c = next_frame st' -> bounded scr_w scr_h st'.
Proof.
  intros Hw Hh. revert st. induction frames as [| f frames IH]; intros st Hst.
  - eexists _, _. split; [reflexivity |]. split; [constructor |]. now intros st' [= <-].
  - destruct (loop_body_bounded scr_w scr_h st f Hw Hh Hst) as (calls & c & Hb & Hc & Hn).
    cbn [capture_loop_from]. rewrite Hb. cbn [mbind option_bind].
    destruct c as [st1 | |].
    + destruct (IH st1 (Hn st1 eq_refl)) as (its & c' & Hr & Hi & Hn').
      rewrite Hr. cbn. eexists _, _. split; [reflexivity |].
      split; [constructor; assumption | exact Hn'].
    + eexists _, _. split; [reflexivity |]. split; [repeat constructor; assumption |].
      intros st' [=].
    + eexists _, _. split; [reflexivity |]. split; [repeat constructor; assumption |].
      intros st' [=].
Qed.

(** C9.  On a screen of width [scr_w] and height [scr_h], the mapper at the
    configured margin sends every coordinate, also one outside [0, 1], into
    [0, 1]; and whatever frames the loop is fed from its initial state,
    every position it gives the pointer, and the smoothed position it
    keeps, is within [0, scr_w] x [0, scr_h]. *)
Theorem cursor_stays_on_screen (scr_w scr_h : Z) (frames : list frame) :
  (0 <= scr_w)%Z ->
  (0 <= scr_h)%Z ->
  (forall v, exists r, map_with_margin v CAMERA_MARGIN = Some r /\ 0 <= r <= 1)
  /\ exists its c,
      capture_loop scr_w scr_h frames = Some (its, c)
      /\ Forall (Forall (on_screen scr_w scr_h)) its
      /\ forall st, c = next_frame st ->
           (0 <= prev_x st <= scr_w)%Z /\ (0 <= prev_y st <= scr_h)%Z.
Proof.
  intros Hw Hh. split.
  - intros v. exists (mapped v). split; [reflexivity | apply mapped_range].
  - assert (H0 : bounded scr_w scr_h initial).
    { unfold bounded, initial. cbn [prev_x prev_y]. lia. }
    exact (capture_loop_from_bounded scr_w scr_h frames initial Hw Hh H0).
Qed.

Lemma cursor_stays_on_screen_witness :
  (0 <= 1920)%Z
  /\ (0 <= 1080)%Z
  /\ (forall v, exists r, map_with_margin v CAMERA_MARGIN = Some r /\ 0 <= r <= 1)
  /\ exists its c,
      capture_loop 1920 1080 [hand centred; no_hand; hand middle_curled]
      = Some (its, c)
      /\ Forall (Forall (on_screen 1920 1080)) its
      /\ forall st, c = next_frame st ->
           (0 <= prev_x st <= 1920)%Z /\ (0 <= prev_y st <= 1080)%Z.
Proof.
  assert (H1 : (0 <= 1920)%Z) by lia.
  assert (H2 : (0 <= 1080)%Z) by lia.
  split; [exact H1 |]. split; [exact H2 |].
  exact (cursor_stays_on_screen 1920 1080 [hand centred; no_hand; hand middle_curled] H1 H2).
Defined.

(** ** The mouse buttons across frames *)

Lemma button_down_app (b : Button.t) (d : bool) (l l' : list call) :
  button_down b d (l ++ l') = button_down b (button_down b d l) l'.
Proof. unfold button_down. apply foldl_app. Qed.

Lemma loop_body_buttons (scr_w scr_h : Z) (st : state) (f : frame) :
  exists calls c,
    loop_body scr_w scr_h st f = Some (calls, c)
    /\ button_down Button.right false calls = false
    /\ occurrences (Action.press Button.right) (actions calls) = 0%nat
    /\ occurrences (Action.release Button.right) (actions calls) = 0%nat
    /\ forall d st',
         c = next_frame st' ->
         (d = true -> middle_grabbed st = true) ->
         button_down Button.left d calls = true -> middle_grabbed st' = true.
Proof.
  destruct f as [| [lm |] key].
  - eexists _, _. split; [reflexivity |]. repeat split.
    intros d st' [= <-] H Hd. exact (H Hd).
  - eexists _, _. split; [apply loop_body_hand |].
    destruct (exits st lm).
    + repeat split. intros d st' [=].
    + unfold button_calls, after_hand, grab, right_click, click.
      destruct (middle_down lm), (middle_grabbed st) eqn:Eg, (ring_down lm),
        (ring_was_down st), (pinky_down lm), (pinky_was_down st);
        repeat split;
        try (intros d st' Hc H Hd; destruct key; [discriminate Hc |];
             injection Hc as <-; cbn in *; try reflexivity;
             destruct d; solve [discriminate Hd | now apply H]).
  - eexists _, _. split; [apply loop_body_no_hand |]. repeat split.
    intros d st' Hc H Hd. destruct key; [discriminate |]. injection Hc as <-.
    exact (H Hd).
Qed.

Lemma capture_loop_from_buttons (scr_w scr_h : Z) (frames : list frame) (st : state) (d : bool) :
  (d = true -> middle_grabbed st = true) ->
  exists its c,
    capture_loop_from scr_w scr_h st frames = Some (its, c)
    /\ Forall (fun calls => button_down Button.right false calls = false) its
    /\ emitted (Action.press Button.right) its = 0%nat
    /\ emitted (Action.release Button.right) its = 0%nat
    /\ forall st',
         c = next_frame st' ->
         button_down Button.left d (concat its) = true -> middle_grabbed st' = true.
Proof.
  revert st d. induction frames as [| f frames IH]; intros st d Hd.
  - eexists _, _. split; [reflexivity |]. repeat split; [constructor |].
    intros st' [= <-] H. exact (Hd H).
  - destruct (loop_body_buttons scr_w scr_h st f) as (calls & c & Hb & Hr & Hp & Hq & Hl).
    cbn [capture_loop_from]. rewrite Hb. cbn [mbind option_bind].
    destruct c as [st1 | |].
    + destruct (IH st1 (button_down Button.left d calls) (Hl d st1 eq_refl Hd))
        as (its & c' & Hrun & Hr' & Hp' & Hq' & Hl').
      rewrite Hrun. cbn [mbind option_bind]. eexists _, _. split; [reflexivity |].
      split; [constructor; assumption |].
      split; [rewrite emitted_cons, Hp, Hp'; reflexivity |].
      split; [rewrite emitted_cons, Hq, Hq'; reflexivity |].
      intros st' Hc. cbn [concat]. rewrite button_down_app. exact (Hl' st' Hc).
    + eexists _, _. split; [reflexivity |].
      split; [repeat constructor; assumption |].
      split; [rewrite emitted_cons, Hp; reflexivity |].
      split; [rewrite emitted_cons, Hq; reflexivity |]. intros st' [=].
    + eexists _, _. split; [reflexivity |].
      split; [repeat constructor; assumption |].
      split; [rewrite emitted_cons, Hp; reflexivity |].
      split; [rewrite emitted_cons, Hq; reflexivity |]. intros st' [=].
Qed.

Lemma right_button_up_after (its : list (list call)) (n : nat) :
  Forall (fun calls => button_down Button.right false calls = false) its ->
  button_down Button.right false (concat (take n its)) = false.
Proof.
  intros H. revert n. induction H as [| calls its Hc _ IH]; intros n.
  - now rewrite take_nil.
  - destruct n as [| n]; [reflexivity |].
    cbn [take concat]. rewrite button_down_app, Hc. apply IH.
Qed.

(** C10.  Whatever frames the loop is fed from its initial state, with both
    buttons up at the start: the right button is up at the end of every
    iteration, because it is only ever clicked (each [press(right)] is
    immediately followed by [release(right)] in the same iteration); and if
    the left button is down when the run is over, the grab latch
    [middle_grabbed] is set. *)
Theorem right_button_never_held (scr_w scr_h : Z) (frames : list frame) :
  exists its c,
    capture_loop scr_w scr_h frames = Some (its, c)
    /\ (forall n, button_down Button.right false (concat (take n its)) = false)
    /\ emitted (Action.press Button.right) its = 0%nat
    /\ emitted (Action.release Button.right) its = 0%nat
    /\ forall st,
         c = next_frame st ->
         button_down Button.left false (concat its) = true ->
         middle_grabbed st = true.
Proof.
  destruct (capture_loop_from_buttons scr_w scr_h frames initial false)
    as (its & c & Hrun & Hr & Hp & Hq & Hl); [discriminate |].
  exists its, c. split; [exact Hrun |].
  split; [intros n; apply right_button_up_after, Hr |].
  repeat split; assumption.
Qed.

(** The grab and the pinky's click use the same button.  With the middle
    finger and the pinky both going down in one frame the controller
    receives press, press, release of the left button, read as the grab's
    press followed by one click; the button is then up while
    [middle_grabbed] is set. *)
Lemma grab_and_click_share_the_left_button :
  exists active_gestures st',
    loop_body 1920 1080 initial (hand middle_pinky_curled)
    = Some ([set_position 288 121; press Button.left;
             press Button.left; release Button.left;
             put_nowait ∅ active_gestures], next_frame st')
    /\ actions [set_position 288 121; press Button.left;
                press Button.left; release Button.left;
                put_nowait ∅ active_gestures]
       = [Action.move_to 288 121; Action.press Button.left; Action.click Button.left]
    /\ button_down Button.left false
         [set_position 288 121; press Button.left;
          press Button.left; release Button.left;
          put_nowait ∅ active_gestures] = false
    /\ middle_grabbed st' = true.
Proof.
  eexists _, _. split.
  - rewrite loop_body_hand_calls by reflexivity. reflexivity.
  - repeat split.
Qed.

(** ** The worked scenarios on IEEE doubles *)

(** Scenario A and the inputs of the examples above give, with binary64
    arithmetic, the values the rational model gives. *)
Lemma binary64_scenario_A :
  Binary64.map_with_margin 0.5 Binary64.CAMERA_MARGIN = Some (Binary64.Float 0.5)
  /\ Binary64.scale (Binary64.Float 0.5) 1920 = Some 960%Z
  /\ Binary64.scale (Binary64.Float 0.5) 1080 = Some 540%Z
  /\ Binary64.smooth 0 960 = Some 288%Z
  /\ Binary64.smooth 0 540 = Some 162%Z.
Proof. repeat split; vm_compute; reflexivity. Qed.

Lemma binary64_examples :
  Binary64.smooth 0 3 = Some 0%Z
  /\ Binary64.smooth 0 10 = Some 3%Z
  /\ (Binary64.map_with_margin 0x1.999999999999ap-2 Binary64.CAMERA_MARGIN
      ≫= fun mapped_y => Binary64.scale mapped_y 1080) = Some 405%Z
  /\ Binary64.smooth 0 405 = Some 121%Z
  /\ smooth 0 10 = 3%Z
  /\ cursor 1920 1080 rock_hand = (960, 405)%Z.
Proof. repeat split; vm_compute; reflexivity. Qed.

(** * Further properties of the code *)

(** ** [map_with_margin] at any margin *)

Lemma clamp_unit_monotone (w w' : Q) :
  w <= w' -> Py.min (Py.max w 0) 1 <= Py.min (Py.max w' 0) 1.
Proof.
  intros H. unfold Py.min, Py.max, Py.gtb.
  destruct (ltb_spec w 0), (ltb_spec w' 0);
    repeat match goal with |- context [?a <? ?b] => destruct (ltb_spec a b) end; lra.
Qed.


(** X2.  Below one half the margin keeps the order of the values: a
    coordinate further along the axis never maps to a smaller result.  Above
    one half the divisor is negative and the order is reversed. *)
Theorem map_with_margin_monotone (v v' margin : Q) :
  v <= v' ->
  ~ margin == 1 # 2 ->
  exists r r',
    map_with_margin v margin = Some r
    /\ map_with_margin v' margin = Some r'
    /\ (margin < 1 # 2 -> r <= r')
    /\ (1 # 2 < margin -> r' <= r).
Proof.
  intros Hv Hm. unfold map_with_margin.
  destruct (Qeq_bool (1 - 2 * margin) 0) eqn:E.
  { apply Qeq_bool_eq in E. exfalso. apply Hm. lra. }
  eexists _, _. split; [reflexivity |]. split; [reflexivity |]. split.
  - intros H. apply clamp_unit_monotone.
    apply Qle_shift_div_l; [lra |].
    unfold Qdiv. rewrite <- Qmult_assoc, (Qmult_comm (/ _)), Qmult_inv_r by lra. lra.
  - intros H. apply clamp_unit_monotone.
    assert (Hd : 0 < - (1 - 2 * margin)) by lra.
    assert (Hq : forall a, a / (1 - 2 * margin) == (- a) / - (1 - 2 * margin)).
    { intros a. field. lra. }
    rewrite (Hq (v - margin)), (Hq (v' - margin)).
    apply Qle_shift_div_l; [lra |].
    unfold Qdiv. rewrite <- Qmult_assoc, (Qmult_comm (/ _)), Qmult_inv_r by lra. lra.
Qed.

Lemma map_with_margin_monotone_witness :
  0.2 <= 0.7
  /\ ~ 0.10 == 1 # 2
  /\ exists r r',
      map_with_margin 0.2 0.10 = Some r
      /\ map_with_margin 0.7 0.10 = Some r'
      /\ (0.10 < 1 # 2 -> r <= r')
      /\ (1 # 2 < 0.10 -> r' <= r).
Proof.
  assert (H1 : 0.2 <= 0.7) by lra.
  assert (H2 : ~ 0.10 == 1 # 2) by lra.
  split; [exact H1 |]. split; [exact H2 |].
  exact (map_with_margin_monotone 0.2 0.7 0.10 H1 H2).
Defined.

(** ** The smoother on screen coordinates *)

(** X4.  The smoother has a one-sided dead band.  A raw position up to 3
    pixels above the previous one does not move the pointer at all; from 4
    pixels on it moves it, strictly towards the raw position and short of
    it; a raw position below the previous one always moves it, by at least
    one pixel and never past the raw position. *)
Theorem smooth_dead_band (prev raw : Z) :
  (0 <= prev)%Z ->
  (0 <= raw)%Z ->
  ((prev <= raw <= prev + 3)%Z -> smooth prev raw = prev)
  /\ ((prev + 4 <= raw)%Z -> (prev < smooth prev raw < raw)%Z)
  /\ ((raw < prev)%Z -> (raw <= smooth prev raw < prev)%Z).
Proof.
  intros Hp Hr. pose proof (smooth_floor prev raw Hp Hr) as H.
  repeat split; intros; lia.
Qed.

Lemma smooth_dead_band_witness :
  (0 <= 100)%Z
  /\ (0 <= 103)%Z
  /\ ((100 <= 103 <= 100 + 3)%Z -> smooth 100 103 = 100%Z)
  /\ ((100 + 4 <= 103)%Z -> (100 < smooth 100 103 < 103)%Z)
  /\ ((103 < 100)%Z -> (103 <= smooth 100 103 < 100)%Z).
Proof.
  assert (H1 : (0 <= 100)%Z) by lia.
  assert (H2 : (0 <= 103)%Z) by lia.
  split; [exact H1 |]. split; [exact H2 |].
  exact (smooth_dead_band 100 103 H1 H2).
Defined.

(** X5.  On screen coordinates the smoother is monotone in both arguments:
    a raw position further along the axis, or a previous position further
    along it, never gives a smaller output. *)
Theorem smooth_monotone (prev prev' raw raw' : Z) :
  (0 <= prev <= prev')%Z ->
  (0 <= raw <= raw')%Z ->
  (smooth prev raw <= smooth prev' raw')%Z.
Proof.
  intros Hp Hr.
  pose proof (smooth_floor prev raw ltac:(lia) ltac:(lia)).
  pose proof (smooth_floor prev' raw' ltac:(lia) ltac:(lia)).
  lia.
Qed.

Lemma smooth_monotone_witness :
  (0 <= 10 <= 20)%Z /\ (0 <= 30 <= 35)%Z /\ (smooth 10 30 <= smooth 20 35)%Z.
Proof.
  assert (H1 : (0 <= 10 <= 20)%Z) by lia.
  assert (H2 : (0 <= 30 <= 35)%Z) by lia.
  split; [exact H1 |]. split; [exact H2 |].
  exact (smooth_monotone 10 20 30 35 H1 H2).
Defined.

(** ** The pointer keeps off the far edges *)

Lemma loop_body_inner (scr_w scr_h : Z) (st : state) (f : frame) :
  (3 <= scr_w)%Z -> (3 <= scr_h)%Z -> bounded (scr_w - 3) (scr_h - 3) st ->
  exists calls c,
    loop_body scr_w scr_h st f = Some (calls, c)
    /\ Forall (on_screen (scr_w - 3) (scr_h - 3)) calls
    /\ forall st', c = next_frame st' -> bounded (scr_w - 3) (scr_h - 3) st'.
Proof.
  intros Hw Hh [Hx Hy]. destruct f as [| [lm |] key].
  - eexists _, _. split; [reflexivity |]. split; [constructor |].
    intros st' [= <-]. now split.
  - destruct (cursor_bounds scr_w scr_h lm ltac:(lia) ltac:(lia)) as [Hcx Hcy].
    pose proof (smooth_floor (prev_x st) (cursor scr_w scr_h lm).1
                  ltac:(lia) ltac:(lia)) as Hsx.
    pose proof (smooth_floor (prev_y st) (cursor scr_w scr_h lm).2
                  ltac:(lia) ltac:(lia)) as Hsy.
    eexists _, _. split; [apply loop_body_hand |]. split.
    + constructor; [cbn [on_screen]; lia |].
      destruct (exits st lm); [repeat constructor |].
      apply Forall_app. split; [| repeat constructor].
      unfold button_calls, grab, right_click, click.
      destruct (middle_down lm), (middle_grabbed st), (ring_down lm), (ring_was_down st),
        (pinky_down lm), (pinky_was_down st); repeat constructor.
    + intros st' Hc. destruct (exits st lm); [discriminate |].
      destruct key; [discriminate |]. injection Hc as <-.
      unfold bounded, after_hand. cbn [prev_x prev_y]. lia.
  - eexists _, _. split; [apply loop_body_no_hand |]. split; [repeat constructor |].
    intros st' Hc. destruct key; [discriminate |]. injection Hc as <-. now split.
Qed.

Lemma capture_loop_from_inner (scr_w scr_h : Z) (frames : list frame) (st : state) :
  (3 <= scr_w)%Z -> (3 <= scr_h)%Z -> bounded (scr_w - 3) (scr_h - 3) st ->
  exists its c,
    capture_loop_from scr_w scr_h st frames = Some (its, c)
    /\ Forall (Forall (on_screen (scr_w - 3) (scr_h - 3))) its
    /\ forall st', c = next_frame st' -> bounded (scr_w - 3) (scr_h - 3) st'.
Proof.
  intros Hw Hh. revert st. induction frames as [| f frames IH]; intros st Hst.
  - eexists _, _. split; [reflexivity |]. split; [constructor |]. now intros st' [= <-].
  - destruct (loop_body_inner scr_w scr_h st f Hw Hh Hst) as (calls & c & Hb & Hc & Hn).
    cbn [capture_loop_from]. rewrite Hb. cbn [mbind option_bind].
    destruct c as [st1 | |].
    + destruct (IH st1 (Hn st1 eq_refl)) as (its & c' & Hr & Hi & Hn').
      rewrite Hr. cbn. eexists _, _. split; [reflexivity |].
      split; [constructor; assumption | exact Hn'].
    + eexists _, _. split; [reflexivity |]. split; [repeat constructor; assumption |].
      intros st' [=].
    + eexists _, _. split; [reflexivity |]. split; [repeat constructor; assumption |].
      intros st' [=].
Qed.

(** X6.  Because the smoother starts at (0, 0) and truncates, the pointer
    never comes closer than 3 pixels to the right or to the bottom edge: on
    a screen at least 3 pixels wide and high, whatever frames the loop is
    fed, every position it gives the pointer has [x <= scr_w - 3] and
    [y <= scr_h - 3]. *)
Theorem pointer_keeps_off_far_edges (scr_w scr_h : Z) (frames : list frame) :
  (3 <= scr_w)%Z ->
  (3 <= scr_h)%Z ->
  exists its c,
    capture_loop scr_w scr_h frames = Some (its, c)
    /\ Forall (Forall (on_screen (scr_w - 3) (scr_h - 3))) its
    /\ forall st, c = next_frame st ->
         (0 <= prev_x st <= scr_w - 3)%Z /\ (0 <= prev_y st <= scr_h - 3)%Z.
Proof.
  intros Hw Hh.
  assert (H0 : bounded (scr_w - 3) (scr_h - 3) initial).
  { unfold bounded, initial. cbn [prev_x prev_y]. lia. }
  exact (capture_loop_from_inner scr_w scr_h frames initial Hw Hh H0).
Qed.

Lemma pointer_keeps_off_far_edges_witness :
  (3 <= 1920)%Z
  /\ (3 <= 1080)%Z
  /\ exists its c,
      capture_loop 1920 1080 [hand centred; no_hand; hand middle_curled] = Some (its, c)
      /\ Forall (Forall (on_screen (1920 - 3) (1080 - 3))) its
      /\ forall st, c = next_frame st ->
           (0 <= prev_x st <= 1920 - 3)%Z /\ (0 <= prev_y st <= 1080 - 3)%Z.
Proof.
  assert (H1 : (3 <= 1920)%Z) by lia.
  assert (H2 : (3 <= 1080)%Z) by lia.
  split; [exact H1 |]. split; [exact H2 |].
  exact (pointer_keeps_off_far_edges 1920 1080
           [hand centred; no_hand; hand middle_curled] H1 H2).
Defined.

(** ** The termination latch *)

Lemma exit_latch_from (scr_w scr_h : Z) (frames : list frame) (st : state) :
  all_fingers_were_down st = false ->
  exists its c,
    capture_loop_from scr_w scr_h st frames = Some (its, c)
    /\ (forall st', c = next_frame st' ->
          all_fingers_were_down st' = false
          /\ Forall (fun lm => rock_and_roll lm = false) (hands frames))
    /\ (c = process_exit ->
        Exists (fun lm => rock_and_roll lm = true) (hands frames)).
Proof.
  revert st. induction frames as [| f frames IH]; intros st Hst.
  - eexists _, _. split; [reflexivity |]. split.
    + intros st' [= <-]. split; [exact Hst | constructor].
    + discriminate.
  - cbn [capture_loop_from]. destruct f as [| [lm |] key].
    + cbn [loop_body mbind option_bind].
      destruct (IH st Hst) as (its & c & Hrun & Hn & He).
      rewrite Hrun. cbn. eexists _, _. split; [reflexivity |]. split; assumption.
    + rewrite loop_body_hand. unfold exits. rewrite Hst. cbn [negb].
      rewrite andb_true_r. unfold hands. cbn [omap seen]. fold (hands frames).
      destruct (rock_and_roll lm) eqn:Er; cbn [mbind option_bind].
      * eexists _, _. split; [reflexivity |]. split; [discriminate |].
        intros _. now constructor.
      * destruct key; cbn [mbind option_bind].
        { eexists _, _. split; [reflexivity |]. split; discriminate. }
        destruct (IH (after_hand scr_w scr_h st lm) Er) as (its & c & Hrun & Hn & He).
        rewrite Hrun. cbn. eexists _, _. split; [reflexivity |]. split.
        -- intros st' Hc. destruct (Hn st' Hc). split; [assumption | now constructor].
        -- intros Hc. apply Exists_cons_tl. exact (He Hc).
    + rewrite loop_body_no_hand. cbn [mbind option_bind].
      destruct key; cbn [mbind option_bind].
      { eexists _, _. split; [reflexivity |]. split; discriminate. }
      destruct (IH st Hst) as (its & c & Hrun & Hn & He).
      rewrite Hrun. cbn. eexists _, _. split; [reflexivity |]. split; assumption.
Qed.

(** X8.  [all_fingers_were_down] is never set while the loop runs: started
    from its initial state the loop ends the process on the first frame that
    shows the termination gesture, so a run that is still going has seen no
    such frame and its latch is false, and a run that ended the process has
    seen one.  The assignment [all_fingers_were_down = True] is never
    reached. *)
Theorem exit_latch_never_set (scr_w scr_h : Z) (frames : list frame) :
  exists its c,
    capture_loop scr_w scr_h frames = Some (its, c)
    /\ (forall st, c = next_frame st ->
          all_fingers_were_down st = false
          /\ Forall (fun lm => rock_and_roll lm = false) (hands frames))
    /\ (c = process_exit ->
        Exists (fun lm => rock_and_roll lm = true) (hands frames)).
Proof. exact (exit_latch_from scr_w scr_h frames initial eq_refl). Qed.

(** X9.  The termination gesture wins over the quit key: an iteration whose
    frame shows the gesture on a cleared latch ends the process whether or
    not the quit key was pressed, after moving the pointer and without
    putting anything on the queue. *)
Theorem exit_beats_quit_key (scr_w scr_h : Z) (st : state) (lm : landmarks) (key : bool) :
  all_fingers_were_down st = false ->
  rock_and_roll lm = true ->
  exists x y,
    loop_body scr_w scr_h st (captured (Some lm) key)
    = Some ([set_position x y; os_exit], process_exit)
    /\ offered [set_position x y; os_exit] = [].
Proof.
  intros Hst Hr. eexists _, _. split; [| reflexivity].
  apply loop_body_exit. unfold exits. now rewrite Hr, Hst.
Qed.

Lemma exit_beats_quit_key_witness :
  all_fingers_were_down initial = false
  /\ rock_and_roll rock_hand = true
  /\ exists x y,
      loop_body 1920 1080 initial (captured (Some rock_hand) true)
      = Some ([set_position x y; os_exit], process_exit)
      /\ offered [set_position x y; os_exit] = [].
Proof.
  split; [reflexivity |]. split; [reflexivity |].
  exact (exit_beats_quit_key 1920 1080 initial rock_hand true eq_refl eq_refl).
Defined.

(** ** The latches across frames without a hand *)

Lemma no_actions_emitted (a : Action.t) (calls : list call) (its : list (list call)) :
  actions calls = [] -> emitted a (calls :: its) = emitted a its.
Proof. intros H. rewrite emitted_cons, H. reflexivity. Qed.

(** X10.  Frames without a hand, and failed reads, neither reset nor fire
    the latches.  In a run without quit key and without termination
    gesture, the clicks of the right and of the left button are the
    false-to-true edges of [ring_down] and of [pinky_down] along the frames
    that show a hand, the grab's presses are the false-to-true edges of
    [middle_down] and its releases the true-to-false edges: a finger that is
    down when the hand leaves the picture and still down when it comes back
    does not click again, and a grab is neither released nor pressed again
    over the gap. *)
Theorem latches_ignore_gaps (scr_w scr_h : Z) (frames : list frame) (st : state) :
  Forall (fun f => quit_key_of f = false) frames ->
  Forall (fun lm => rock_and_roll lm = false) (hands frames) ->
  exists its st',
    capture_loop_from scr_w scr_h st frames = Some (its, next_frame st')
    /\ emitted (Action.click Button.right) its
       = rising_edges (ring_was_down st) (map ring_down (hands frames))
    /\ emitted (Action.click Button.left) its
       = rising_edges (pinky_was_down st) (map pinky_down (hands frames))
    /\ emitted (Action.press Button.left) its
       = rising_edges (middle_grabbed st) (map middle_down (hands frames))
    /\ emitted (Action.release Button.left) its
       = falling_edges (middle_grabbed st) (map middle_down (hands frames)).
Proof.
  intros Hk. revert st. induction Hk as [| f frames Hf _ IH]; intros st Hr.
  - eexists _, _. split; [reflexivity |]. repeat split.
  - cbn [capture_loop_from]. destruct f as [| [lm |] key]; cbn in Hf; subst.
    + cbn [loop_body mbind option_bind].
      destruct (IH st Hr) as (its & st' & Hrun & H1 & H2 & H3 & H4).
      rewrite Hrun. cbn [mbind option_bind]. eexists _, _. split; [reflexivity |].
      rewrite !no_actions_emitted by reflexivity. repeat split; assumption.
    + unfold hands in Hr. cbn [omap seen] in Hr. fold (hands frames) in Hr.
      apply Forall_cons in Hr as [Hlm Hr].
      rewrite (loop_body_hand_calls _ _ _ _ (exits_no_rock st lm Hlm)).
      cbn [mbind option_bind].
      destruct (IH (after_hand scr_w scr_h st lm) Hr) as (its & st' & Hrun & H1 & H2 & H3 & H4).
      rewrite Hrun. cbn [mbind option_bind]. eexists _, _. split; [reflexivity |].
      unfold hands. cbn [omap seen]. fold (hands frames).
      cbn [map rising_edges falling_edges]. rewrite !emitted_cons.
      destruct (hand_calls_buttons scr_w scr_h st lm) as (Hp & Hq & Hcr & Hcl & _).
      cbv zeta in Hp, Hq, Hcr, Hcl. rewrite Hp, Hq, Hcr, Hcl, H1, H2, H3, H4.
      destruct (after_hand_latches scr_w scr_h st lm) as (-> & -> & ->).
      repeat split; reflexivity.
    + change (loop_body scr_w scr_h st (captured None false))
        with (Some ([put_nowait ∅ ∅], next_frame st)).
      cbn [mbind option_bind].
      destruct (IH st Hr) as (its & st' & Hrun & H1 & H2 & H3 & H4).
      rewrite Hrun. cbn [mbind option_bind]. eexists _, _. split; [reflexivity |].
      rewrite !no_actions_emitted by reflexivity. repeat split; assumption.
Qed.

Lemma latches_ignore_gaps_witness :
  Forall (fun f => quit_key_of f = false)
    [hand ring_curled; no_hand; read_failed; hand ring_curled; hand middle_curled]
  /\ Forall (fun lm => rock_and_roll lm = false)
       (hands [hand ring_curled; no_hand; read_failed; hand ring_curled; hand middle_curled])
  /\ exists its st',
      capture_loop_from 1920 1080 initial
        [hand ring_curled; no_hand; read_failed; hand ring_curled; hand middle_curled]
      = Some (its, next_frame st')
      /\ emitted (Action.click Button.right) its
         = rising_edges (ring_was_down initial)
             (map ring_down (hands [hand ring_curled; no_hand; read_failed;
                                    hand ring_curled; hand middle_curled]))
      /\ emitted (Action.click Button.left) its
         = rising_edges (pinky_was_down initial)
             (map pinky_down (hands [hand ring_curled; no_hand; read_failed;
                                     hand ring_curled; hand middle_curled]))
      /\ emitted (Action.press Button.left) its
         = rising_edges (middle_grabbed initial)
             (map middle_down (hands [hand ring_curled; no_hand; read_failed;
                                      hand ring_curled; hand middle_curled]))
      /\ emitted (Action.release Button.left) its
         = falling_edges (middle_grabbed initial)
             (map middle_down (hands [hand ring_curled; no_hand; read_failed;
                                      hand ring_curled; hand middle_curled])).
Proof.
  assert (H1 : Forall (fun f => quit_key_of f = false)
                 [hand ring_curled; no_hand; read_failed; hand ring_curled;
                  hand middle_curled]) by (repeat constructor).
  assert (H2 : Forall (fun lm => rock_and_roll lm = false)
                 (hands [hand ring_curled; no_hand; read_failed; hand ring_curled;
                         hand middle_curled])) by (repeat constructor).
  split; [exact H1 |]. split; [exact H2 |].
  exact (latches_ignore_gaps 1920 1080 _ initial H1 H2).
Defined.

(** ** The grab and the pinky's click on one button *)

Lemma pinky_down_no_rock (lm : landmarks) : pinky_down lm = true -> rock_and_roll lm = false.
Proof.
  intros H. apply gtb_gt in H.
  destruct (rock_and_roll lm) eqn:E; [| reflexivity].
  apply rock_and_roll_spec in E. destruct E as (_ & E & _). lra.
Qed.

(** X11.  A click of the pinky during a grab lets go of what is grabbed.
    With the grab latch set and the left button down, a frame on which the
    middle finger stays down and the pinky goes down leaves the left button
    up while [middle_grabbed] stays set; and as long as the middle finger
    stays down no later frame presses the button again. *)
Theorem click_drops_the_grab
    (scr_w scr_h : Z) (st : state) (lm lm_next : landmarks) :
  middle_grabbed st = true ->
  pinky_was_down st = false ->
  middle_down lm = true ->
  pinky_down lm = true ->
  middle_down lm_next = true ->
  rock_and_roll lm_next = false ->
  exists calls st' calls_next st'',
    loop_body scr_w scr_h st (hand lm) = Some (calls, next_frame st')
    /\ button_down Button.left true calls = false
    /\ middle_grabbed st' = true
    /\ loop_body scr_w scr_h st' (hand lm_next) = Some (calls_next, next_frame st'')
    /\ occurrences (Action.press Button.left) (actions calls_next) = 0%nat
    /\ middle_grabbed st'' = true.
Proof.
  intros Hg Hw Hm Hp Hm' Hr'.
  pose proof (pinky_down_no_rock lm Hp) as Hr.
  set (st1 := after_hand scr_w scr_h st lm).
  assert (Hg1 : middle_grabbed st1 = true).
  { unfold st1. destruct (after_hand_latches scr_w scr_h st lm) as (-> & _). exact Hm. }
  exists (hand_calls scr_w scr_h st lm), st1,
    (hand_calls scr_w scr_h st1 lm_next), (after_hand scr_w scr_h st1 lm_next).
  split; [apply loop_body_hand_calls, exits_no_rock, Hr |].
  split.
  { unfold hand_calls, button_calls, grab, right_click, click.
    rewrite Hg, Hw, Hm, Hp.
    destruct (ring_down lm), (ring_was_down st); reflexivity. }
  split; [exact Hg1 |].
  split; [apply loop_body_hand_calls, exits_no_rock, Hr' |].
  split.
  { destruct (hand_calls_buttons scr_w scr_h st1 lm_next) as (H & _).
    cbv zeta in H. rewrite H, Hm', Hg1. reflexivity. }
  destruct (after_hand_latches scr_w scr_h st1 lm_next) as (-> & _). exact Hm'.
Qed.

Lemma click_drops_the_grab_witness :
  middle_grabbed (after_hand 1920 1080 initial middle_curled) = true
  /\ pinky_was_down (after_hand 1920 1080 initial middle_curled) = false
  /\ middle_down middle_pinky_curled = true
  /\ pinky_down middle_pinky_curled = true
  /\ middle_down middle_curled = true
  /\ rock_and_roll middle_curled = false
  /\ exists calls st' calls_next st'',
      loop_body 1920 1080 (after_hand 1920 1080 initial middle_curled)
        (hand middle_pinky_curled) = Some (calls, next_frame st')
      /\ button_down Button.left true calls = false
      /\ middle_grabbed st' = true
      /\ loop_body 1920 1080 st' (hand middle_curled) = Some (calls_next, next_frame st'')
      /\ occurrences (Action.press Button.left) (actions calls_next) = 0%nat
      /\ middle_grabbed st'' = true.
Proof.
  repeat (split; [reflexivity |]).
  exact (click_drops_the_grab 1920 1080 (after_hand 1920 1080 initial middle_curled)
           middle_pinky_curled middle_curled
           eq_refl eq_refl eq_refl eq_refl eq_refl eq_refl).
Defined.

(** ** The dictionary of active gestures *)

Lemma gestures_of_spec (lm : landmarks) :
  dom (gestures_of lm) = ({[ (0, 8); (0, 12); (0, 16); (0, 20) ]} : gset (nat * nat))%nat
  /\ gestures_of lm !! (0, 8)%nat = Some true
  /\ gestures_of lm !! (0, 12)%nat = Some (middle_down lm)
  /\ gestures_of lm !! (0, 16)%nat = Some (ring_down lm)
  /\ gestures_of lm !! (0, 20)%nat = Some (pinky_down lm).
Proof.
  unfold gestures_of. split.
  - rewrite !dom_insert_L, dom_empty_L. set_solver.
  - repeat split; now simplify_map_eq.
Qed.

(** X12.  Every frame output of an iteration with a hand carries a gesture
    dictionary with exactly the four keys (0, 8), (0, 12), (0, 16) and
    (0, 20).  The index entry is always true, whether the index finger is
    curled or not; the other three are the finger's down state of this
    frame, not the latch and not "a click was just made": a finger held
    down is reported active on every frame. *)
Theorem active_gestures_report_down_state
    (scr_w scr_h : Z) (st : state) (lm : landmarks) (key : bool) :
  exits st lm = false ->
  exists before tips_scr gestures c,
    loop_body scr_w scr_h st (captured (Some lm) key)
    = Some (before ++ [put_nowait tips_scr gestures], c)
    /\ dom gestures = ({[ (0, 8); (0, 12); (0, 16); (0, 20) ]} : gset (nat * nat))%nat
    /\ gestures !! (0, 8)%nat = Some true
    /\ gestures !! (0, 12)%nat = Some (middle_down lm)
    /\ gestures !! (0, 16)%nat = Some (ring_down lm)
    /\ gestures !! (0, 20)%nat = Some (pinky_down lm).
Proof.
  intros E.
  exists (set_position (smooth (prev_x st) (cursor scr_w scr_h lm).1)
                       (smooth (prev_y st) (cursor scr_w scr_h lm).2)
            :: button_calls st lm),
    (tips_of scr_w scr_h lm), (gestures_of lm).
  eexists. split; [apply loop_body_stay, E | apply gestures_of_spec].
Qed.

Lemma active_gestures_report_down_state_witness :
  exits (after_hand 1920 1080 initial ring_curled) ring_curled = false
  /\ exists before tips_scr gestures c,
      loop_body 1920 1080 (after_hand 1920 1080 initial ring_curled)
        (captured (Some ring_curled) false)
      = Some (before ++ [put_nowait tips_scr gestures], c)
      /\ dom gestures = ({[ (0, 8); (0, 12); (0, 16); (0, 20) ]} : gset (nat * nat))%nat
      /\ gestures !! (0, 8)%nat = Some true
      /\ gestures !! (0, 12)%nat = Some (middle_down ring_curled)
      /\ gestures !! (0, 16)%nat = Some (ring_down ring_curled)
      /\ gestures !! (0, 20)%nat = Some (pinky_down ring_curled).
Proof.
  split; [reflexivity |].
  exact (active_gestures_report_down_state 1920 1080
           (after_hand 1920 1080 initial ring_curled) ring_curled false eq_refl).
Defined.

(** ** The single-slot queue *)

Lemma offer_full (item : gmap (nat * nat) (Z * Z) * gmap (nat * nat) bool)
    (calls : list call) : offer (Some item) calls = Some item.
Proof.
  unfold offer. induction calls as [| c calls IH]; [reflexivity |].
  cbn [foldl]. destruct c; exact IH.
Qed.

Lemma offer_empty (calls : list call) : offer None calls = head (offered calls).
Proof.
  unfold offer, offered. induction calls as [| c calls IH]; [reflexivity |].
  cbn [foldl omap]. destruct c; try exact IH.
  cbn [put]. apply (offer_full _ calls).
Qed.



(** X14.  The queue keeps the oldest item and drops the newer ones.  When
    the loop runs one or more iterations between two runs of
    [update_overlay], the overlay is next updated with the output of the
    first of them that offered one, however many newer outputs followed,
    and the queue is empty afterwards. *)
Theorem queue_keeps_the_oldest
    (ov : overlay) (tips_scr : gmap (nat * nat) (Z * Z)) (gestures : gmap (nat * nat) bool)
    (quiet : list (list call)) (calls : list call) (newer : list (list call)) :
  Forall (fun c => offered c = []) quiet ->
  head (offered calls) = Some (tips_scr, gestures) ->
  shown ov None (map iteration (quiet ++ calls :: newer) ++ [timer])
  = ([(tips_scr, gestures)], (update_tips tips_scr gestures, None)).
Proof.
  intros Hq Hc.
  assert (Hfull : forall its item,
             shown ov (Some item) (map iteration its ++ [timer])
             = ([item], (update_tips item.1 item.2, None))).
  { induction its as [| c its IH]; intros [t g]; [reflexivity |].
    cbn [map app shown]. rewrite offer_full. apply IH. }
  induction Hq as [| c quiet Hc0 _ IH].
  - cbn [app map shown]. rewrite offer_empty, Hc. apply (Hfull newer (tips_scr, gestures)).
  - cbn [app map shown]. rewrite offer_empty, Hc0. exact IH.
Qed.

Lemma queue_keeps_the_oldest_witness :
  Forall (fun c => offered c = []) [[]; [set_position 1 2; os_exit]]
  /\ head (offered [set_position 3 4; put_nowait ∅ ∅]) = Some (∅, ∅)
  /\ shown overlay_init None
       (map iteration ([[]; [set_position 1 2; os_exit]]
                       ++ [set_position 3 4; put_nowait ∅ ∅]
                       :: [[put_nowait ∅ (gestures_of open_hand)]])
        ++ [timer])
     = ([(∅, ∅)], (update_tips ∅ ∅, None)).
Proof.
  assert (H1 : Forall (fun c => offered c = []) [[]; [set_position 1 2; os_exit]])
    by (repeat constructor).
  split; [exact H1 |]. split; [reflexivity |].
  exact (queue_keeps_the_oldest overlay_init ∅ ∅ [[]; [set_position 1 2; os_exit]]
           [set_position 3 4; put_nowait ∅ ∅]
           [[put_nowait ∅ (gestures_of open_hand)]] H1 eq_refl).
Defined.

(** ** What the overlay paints *)

Lemma pulse_scaled (c : Z) (wave : Q) :
  0 <= wave <= 1 -> (0 <= c <= 255)%Z ->
  (0 <= Py.int (inject_Z c * (wave * 0.4 + 0.6)) <= c)%Z.
Proof.
  intros Hw Hc. apply int_bounds.
  assert (H0 : 0 <= inject_Z c) by (apply (inj_le_iff_aux 0 c); lia).
  nra.
Qed.

Lemma pulse_radius (wave : Q) :
  0 <= wave <= 1 ->
  (18 <= Py.int (inject_Z 16 * (1 + 0.3 * (wave * 0.4 + 0.6))) <= 20)%Z.
Proof.
  intros Hw.
  set (q := inject_Z 16 * (1 + 0.3 * (wave * 0.4 + 0.6))).
  assert (Hq : inject_Z 18 <= q <= inject_Z 21).
  { unfold q. change (inject_Z 16) with 16. change (inject_Z 18) with 18.
    change (inject_Z 21) with 21. lra. }
  assert (Hlt : q < inject_Z 21).
  { unfold q. change (inject_Z 16) with 16. change (inject_Z 21) with 21. lra. }
  destruct q as [a b]. unfold Py.int, Qle, Qlt in *. cbn in *.
  rewrite Z.quot_div_nonneg by lia. split.
  - apply Z.div_le_lower_bound; lia.
  - assert (a / Z.pos b < 21)%Z by (apply Z.div_lt_upper_bound; lia). lia.
Qed.

Lemma paint_tip_well_formed (ag : gmap (nat * nat) bool) (wave : Q)
    (item : (nat * nat) * (Z * Z)) :
  0 <= wave <= 1 ->
  Forall OverlayWindow.well_formed (OverlayWindow.paint_tip ag wave item)
  /\ length (List.filter OverlayWindow.is_ellipse (OverlayWindow.paint_tip ag wave item))
     = (if existsb (Nat.eqb item.1.2) OverlayWindow.FINGERTIPS then 1 else 0)%nat.
Proof.
  intros Hw. destruct item as [[hand_idx lm_idx] [x y]]. cbn [fst snd].
  unfold OverlayWindow.paint_tip.
  destruct (existsb (Nat.eqb lm_idx) OverlayWindow.FINGERTIPS) eqn:E;
    [| split; [constructor | reflexivity]].
  assert (Hidx : lm_idx = 8%nat \/ lm_idx = 12%nat \/ lm_idx = 16%nat \/ lm_idx = 20%nat).
  { unfold OverlayWindow.FINGERTIPS in E. cbn [existsb] in E.
    rewrite !orb_true_iff, !Nat.eqb_eq in E. intuition congruence. }
  pose proof (pulse_radius wave Hw) as Hrad.
  assert (Hcol : forall c, (0 <= c <= 255)%Z ->
            (0 <= Py.int (inject_Z c * (wave * 0.4 + 0.6)) <= 255)%Z).
  { intros c Hc. pose proof (pulse_scaled c wave Hw Hc). lia. }
  assert (Hbase : exists r g b,
            default (200, 200, 200)%Z (OverlayWindow.COLORS (hand_idx, lm_idx)) = (r, g, b)
            /\ (0 <= r <= 255)%Z /\ (0 <= g <= 255)%Z /\ (0 <= b <= 255)%Z).
  { destruct (OverlayWindow.COLORS (hand_idx, lm_idx)) as [[[r g] b] |] eqn:Ec.
    - exists r, g, b. split; [reflexivity |].
      destruct hand_idx as [| ?]; [| discriminate Ec].
      destruct Hidx as [-> | [-> | [-> | ->]]]; injection Ec as <- <- <-; lia.
    - exists 200%Z, 200%Z, 200%Z. split; [reflexivity | lia]. }
  destruct Hbase as (r & g & b & -> & Hr & Hg & Hb).
  destruct (default false (ag !! (hand_idx, lm_idx)));
    destruct Hidx as [-> | [-> | [-> | ->]]]; cbn; split; try reflexivity;
    repeat constructor; try discriminate; try lia; auto; apply Hcol; assumption.
Qed.

Lemma paint_tip_painted (ag : gmap (nat * nat) bool) (wave : Q)
    (item : (nat * nat) * (Z * Z)) :
  0 <= wave <= 1 ->
  OverlayWindow.painted ag item (OverlayWindow.paint_tip ag wave item).
Proof.
  intros Hw. destruct item as [[hand_idx lm_idx] [x y]].
  unfold OverlayWindow.painted, OverlayWindow.paint_tip.
  destruct (decide (lm_idx ∈ [8; 12; 16; 20]%nat)) as [Hin | Hout].
  - pose proof (pulse_radius wave Hw) as Hrad.
    assert (Hcol : forall c, (0 <= c <= 255)%Z ->
              (0 <= Py.int (inject_Z c * (wave * 0.4 + 0.6)) <= c)%Z).
    { intros c Hc. exact (pulse_scaled c wave Hw Hc). }
    assert (Hact : default false (ag !! (hand_idx, lm_idx))
                   = bool_decide (ag !! (hand_idx, lm_idx) = Some true)).
    { destruct (ag !! (hand_idx, lm_idx)) as [[] |]; reflexivity. }
    rewrite Hact. clear Hact.
    destruct (decide (ag !! (hand_idx, lm_idx) = Some true)) as [Ha | Ha];
      [rewrite (bool_decide_eq_true_2 _ Ha) | rewrite (bool_decide_eq_false_2 _ Ha)];
      clear Ha;
      repeat (apply elem_of_cons in Hin as [-> | Hin]);
      try (apply elem_of_nil in Hin; contradiction);
      destruct hand_idx as [| hand_idx]; cbn.
    1-8: eexists _, _, _, _;
      (split; [exact Hrad |]);
      (split; [apply Hcol; lia |]); (split; [apply Hcol; lia |]);
      (split; [apply Hcol; lia |]); reflexivity.
    all: do 2 f_equal; f_equal; lia.
  - destruct (existsb (Nat.eqb lm_idx) OverlayWindow.FINGERTIPS) eqn:E; [| reflexivity].
    exfalso. apply Hout. unfold OverlayWindow.FINGERTIPS in E. cbn [existsb] in E.
    rewrite !orb_true_iff, !Nat.eqb_eq in E. rewrite !elem_of_cons.
    intuition congruence.
Qed.

(** X15.  Whatever tips and gestures the overlay holds, and at any moment of
    the pulse, [paintEvent] draws, item by item and in the order of the
    items: nothing for a landmark that is not one of 8, 12, 16, 20; for a
    fingertip whose gesture is not active the circle of radius exactly 16 in
    the fingertip's own colour with alpha 220, and its letter; for a
    fingertip whose gesture is active a circle of radius 18 to 20 with
    alpha 220 in which no colour channel exceeds the fingertip's own, its
    letter, and the name of the gesture above.  Hence every circle has a
    radius from 16 to 20 and colour components within 0..255, every label is
    non-empty, and there is exactly one circle per fingertip item. *)
Theorem paintEvent_draws_well_formed_shapes
    (items : list ((nat * nat) * (Z * Z))) (ag : gmap (nat * nat) bool) (wave : Q) :
  0 <= wave <= 1 ->
  (exists groups,
     OverlayWindow.paintEvent items ag wave = concat groups
     /\ Forall2 (OverlayWindow.painted ag) items groups)
  /\ Forall OverlayWindow.well_formed (OverlayWindow.paintEvent items ag wave)
  /\ length (List.filter OverlayWindow.is_ellipse (OverlayWindow.paintEvent items ag wave))
     = length (List.filter
                 (fun item => existsb (Nat.eqb item.1.2) OverlayWindow.FINGERTIPS) items).
Proof.
  intros Hw. unfold OverlayWindow.paintEvent. split.
  { exists (map (OverlayWindow.paint_tip ag wave) items). split; [reflexivity |].
    induction items as [| item items IH]; cbn [map]; constructor;
      [apply paint_tip_painted, Hw | exact IH]. }
  induction items as [| item items [IH1 IH2]]; [split; [constructor | reflexivity] |].
  destruct (paint_tip_well_formed ag wave item Hw) as [H1 H2].
  cbn [map concat List.filter]. split.
  - apply Forall_app. split; assumption.
  - rewrite List.filter_app, length_app, H2, IH2.
    destruct (existsb (Nat.eqb item.1.2) OverlayWindow.FINGERTIPS); reflexivity.
Qed.

Lemma paintEvent_draws_well_formed_shapes_witness :
  0 <= 0.5 <= 1
  /\ (exists groups,
        OverlayWindow.paintEvent
          [((0, 8)%nat, (288, 162)%Z); ((0, 12)%nat, (300, 150)%Z); ((0, 4)%nat, (1, 1)%Z)]
          (gestures_of open_hand) 0.5 = concat groups
        /\ Forall2 (OverlayWindow.painted (gestures_of open_hand))
             [((0, 8)%nat, (288, 162)%Z); ((0, 12)%nat, (300, 150)%Z); ((0, 4)%nat, (1, 1)%Z)]
             groups)
  /\ Forall OverlayWindow.well_formed
       (OverlayWindow.paintEvent
          [((0, 8)%nat, (288, 162)%Z); ((0, 12)%nat, (300, 150)%Z); ((0, 4)%nat, (1, 1)%Z)]
          (gestures_of open_hand) 0.5)
  /\ length (List.filter OverlayWindow.is_ellipse
               (OverlayWindow.paintEvent
                  [((0, 8)%nat, (288, 162)%Z); ((0, 12)%nat, (300, 150)%Z);
                   ((0, 4)%nat, (1, 1)%Z)]
                  (gestures_of open_hand) 0.5))
     = length (List.filter
                 (fun item => existsb (Nat.eqb item.1.2) OverlayWindow.FINGERTIPS)
                 [((0, 8)%nat, (288, 162)%Z); ((0, 12)%nat, (300, 150)%Z);
                  ((0, 4)%nat, (1, 1)%Z)]).
Proof.
  assert (H : 0 <= 0.5 <= 1) by lra.
  split; [exact H |].
  exact (paintEvent_draws_well_formed_shapes
           [((0, 8)%nat, (288, 162)%Z); ((0, 12)%nat, (300, 150)%Z); ((0, 4)%nat, (1, 1)%Z)]
           (gestures_of open_hand) 0.5 H).
Defined.

(** ** Rounding does not show in the smoother *)

Lemma smooth_agrees_upto_spec (n prev raw : Z) :
  smooth_agrees_upto n = true ->
  (0 <= prev <= n)%Z -> (0 <= raw <= n)%Z ->
  Binary64.smooth prev raw = Some (smooth prev raw).
Proof.
  intros H Hp Hr. unfold smooth_agrees_upto in H.
  rewrite forallb_forall in H.
  assert (Hin : forall z, (0 <= z <= n)%Z -> In z (seqZ 0 (n + 1))).
  { intros z Hz. apply list_elem_of_In, elem_of_seqZ. lia. }
  specialize (H prev (Hin prev Hp)). rewrite forallb_forall in H.
  specialize (H raw (Hin raw Hr)).
  destruct (Binary64.smooth prev raw) as [z |]; [| discriminate H].
  apply Z.eqb_eq in H. now subst.
Qed.

Lemma smooth_agrees_upto_100 : smooth_agrees_upto 100 = true.
Proof. vm_compute. reflexivity. Qed.

(** X16.  For previous and raw coordinates from 0 to 100 the smoothing
    expression evaluated on IEEE doubles, as CPython evaluates it, never
    raises and gives the integer that exact arithmetic gives: on this range
    the rounding of [0.30 * (cursor - prev)] and of the sum never carries
    across the truncation. *)
Theorem smooth_on_doubles_agrees (prev raw : Z) :
  (0 <= prev <= 100)%Z ->
  (0 <= raw <= 100)%Z ->
  Binary64.smooth prev raw = Some (smooth prev raw).
Proof. exact (smooth_agrees_upto_spec 100 prev raw smooth_agrees_upto_100). Qed.

Lemma smooth_on_doubles_agrees_witness :
  (0 <= 7 <= 100)%Z /\ (0 <= 10 <= 100)%Z /\ Binary64.smooth 7 10 = Some (smooth 7 10).
Proof.
  assert (H1 : (0 <= 7 <= 100)%Z) by lia.
  assert (H2 : (0 <= 10 <= 100)%Z) by lia.
  split; [exact H1 |]. split; [exact H2 |].
  exact (smooth_on_doubles_agrees 7 10 H1 H2).
Defined.
